(** * qaEventTrack: track/collision selection and derived-table production

    A shallow embedding of [DPG/Tasks/qaEventTrack.cxx]: the
    table-production path ([isSelectedCollision], [isSelectedTrack],
    [fillDerivedTable], [processTableData], [processTableMC]), [init], and
    the QA path ([fillRecoHistograms], [processData], [processMC],
    [processDataIU], [processDataIUFiltered] and the partition
    [tracksIUFiltered]).

    Conventions.
    - C++ [int], [short], [int64_t] and the unsigned column types are
      carried as [Z]; the only arithmetic the code does on them is
      [nTableEventCounter++], [++nTracks], [iTrack++] and [std::abs].
      [nTableEventCounter++] and [std::abs] work on a 32-bit [int] and are
      written with their two's-complement result ([wrapInt], [absInt]):
      [INT_MAX + 1] and [std::abs(INT_MIN)] are undefined in C++ and come
      out as [INT_MIN] in the compiled task.  The theorems that state a
      value of the count or of [std::abs] carry the range they need as a
      hypothesis.  [nTracks] and [iTrack] count rows of one table and are
      natural numbers.
    - C++ [float] is an abstract type with the operations the code uses
      (class [FloatOps]); no law is assumed of them, so every theorem
      holds for IEEE binary32 with NaN and infinities.  The concrete
      scenarios are run on the instance [binary64_ops].
    - The four [Produces<...>] cursors write to one output stream; the
      model keeps the stream in emission order ([outLog]) and reads each
      table as the projection of the stream on its record kind.
    - [rand()] reads a process-global generator; the model keeps the future
      values of the generator in the state ([randStream]).
    - The [HistogramRegistry] is kept as the sequence of [histos.fill]
      calls; [init] yields the names it books.  The [Filter]s of the task
      are applied by the framework before the process functions run. *)

From Corelib Require Import PrimInt63 PrimFloat.
From stdpp Require Import base list strings.
From Stdlib Require Import ZArith Lia.

Local Open Scope Z_scope.

(** ** Floating-point interface *)

Class FloatOps (float : Type) := {
  fabs : float -> float;                 (* abs(x), the overload on float *)
  fsqrt : float -> float;                (* std::sqrt(x) *)
  fmul : float -> float -> float;        (* x * y *)
  fsub : float -> float -> float;        (* x - y *)
  fdiv : float -> float -> float;        (* x / y *)
  flt : float -> float -> bool;          (* x < y *)
  fgt : float -> float -> bool;          (* x > y *)
  float_of_int : Z -> float;             (* static_cast<float>(n) *)
  float_one : float;                     (* 1.f *)
}.

(** Conversion of a C++ [int] to a primitive float. *)
Fixpoint int63_of_pos (p : positive) : PrimInt63.int :=
  match p with
  | xH => 1%uint63
  | xO q => PrimInt63.mul 2%uint63 (int63_of_pos q)
  | xI q => PrimInt63.add (PrimInt63.mul 2%uint63 (int63_of_pos q)) 1%uint63
  end.

Definition prim_of_Z (n : Z) : PrimFloat.float :=
  match n with
  | Z0 => PrimFloat.zero
  | Zpos p => PrimFloat.of_uint63 (int63_of_pos p)
  | Zneg p => PrimFloat.opp (PrimFloat.of_uint63 (int63_of_pos p))
  end.

#[export] Instance binary64_ops : FloatOps PrimFloat.float := {
  fabs := PrimFloat.abs;
  fsqrt := PrimFloat.sqrt;
  fmul := PrimFloat.mul;
  fsub := PrimFloat.sub;
  fdiv := PrimFloat.div;
  flt := PrimFloat.ltb;
  fgt := fun x y => PrimFloat.ltb y x;
  float_of_int := prim_of_Z;
  float_one := PrimFloat.one;
}.

(** [RAND_MAX] of the C library the task is built against (glibc). *)
Definition RAND_MAX : Z := 2147483647.

(** ** Machine integers *)

(** The range of a C++ [int]. *)
Definition INT_MIN : Z := -2147483648.
Definition INT_MAX : Z := 2147483647.

(** The 32-bit two's-complement value of an integer result. *)
Definition wrapInt (z : Z) : Z := (z + 2147483648) mod 4294967296 - 2147483648.

(** [std::abs] on [int]: the absolute value, and [INT_MIN] at [INT_MIN]. *)
Definition absInt (z : Z) : Z := wrapInt (Z.abs z).

(** ** Configuration *)

(** The [Configurable]s read by the table-production path.  The options
    [selectGlobalTracks] and [debugFilter...] only build the framework's
    [Filter] expressions, which are applied to the track table before the
    task sees it. *)
Record Config (float : Type) := mkConfig {
  isRun3 : bool;
  selectGoodEvents : bool;
  selectMaxVtxZ : float;
  targetNumberOfEvents : Z;
  fractionOfSampledEvents : float;
  selectCharge : Z;
  selectPrim : bool;
  selectSec : bool;
  selectPID : Z;
}.
Arguments mkConfig {float}.
Arguments isRun3 {float}.
Arguments selectGoodEvents {float}.
Arguments selectMaxVtxZ {float}.
Arguments targetNumberOfEvents {float}.
Arguments fractionOfSampledEvents {float}.
Arguments selectCharge {float}.
Arguments selectPrim {float}.
Arguments selectSec {float}.
Arguments selectPID {float}.

(** The [PROCESS_SWITCH]es read by [init]. *)
Record ProcessSwitches := mkSwitches {
  doprocessData : bool;
  doprocessDataIU : bool;
  doprocessDataIUFiltered : bool;
  doprocessMC : bool;
  doprocessTableData : bool;
  doprocessTableMC : bool;
}.

(** ** Input tables *)

(** A row of [aod::McParticles], with the columns the task reads. *)
Record McParticle (float : Type) := mkMcParticle {
  globalIndex : Z;
  mcCollisionId : Z;
  isPhysicalPrimary : bool;
  getProcess : Z;
  pdgCode : Z;
  mc_pt : float;
  mc_eta : float;
  mc_phi : float;
  vx : float;
  vy : float;
  vz : float;
}.
Arguments mkMcParticle {float}.
Arguments globalIndex {float}.
Arguments mcCollisionId {float}.
Arguments isPhysicalPrimary {float}.
Arguments getProcess {float}.
Arguments pdgCode {float}.
Arguments mc_pt {float}.
Arguments mc_eta {float}.
Arguments mc_phi {float}.
Arguments vx {float}.
Arguments vy {float}.
Arguments vz {float}.

(** A row of the joined collision table.  [mcCollision] is the label of
    [aod::McCollisionLabels]: [None] when [has_mcCollision()] is false,
    otherwise the global index of the truth collision. *)
Record Collision (float : Type) := mkCollision {
  posZ : float;
  sel7 : bool;
  sel8 : bool;
  runNumber : Z;                      (* collision.bc().runNumber() *)
  mcCollision : option Z;
}.
Arguments mkCollision {float}.
Arguments posZ {float}.
Arguments sel7 {float}.
Arguments sel8 {float}.
Arguments runNumber {float}.
Arguments mcCollision {float}.

(** A row of the joined, filtered track table.  [mcParticle] is the label
    of [aod::McTrackLabels] already resolved: [None] when
    [has_mcParticle()] is false. *)
Record Track (float : Type) := mkTrack {
  pt : float;
  eta : float;
  phi : float;
  c1Pt21Pt2 : float;
  flags : Z;
  sign : Z;
  dcaXY : float;
  dcaZ : float;
  trackLength : float;                (* track.length() *)
  itsClusterMap : Z;
  itsChi2NCl : float;
  tpcChi2NCl : float;
  trdChi2 : float;
  tofChi2 : float;
  hasITS : bool;
  hasTPC : bool;
  hasTRD : bool;
  hasTOF : bool;
  tpcNClsFound : Z;
  tpcNClsCrossedRows : Z;
  tpcCrossedRowsOverFindableCls : float;
  tpcFoundOverFindableCls : float;
  tpcFractionSharedCls : float;
  itsNCls : Z;
  itsNClsInnerBarrel : Z;
  tpcSignal : float;
  tofSignal : float;
  tofEvTime : float;
  mcParticle : option (McParticle float);
}.
Arguments mkTrack {float}.
Arguments pt {float}.
Arguments eta {float}.
Arguments phi {float}.
Arguments c1Pt21Pt2 {float}.
Arguments flags {float}.
Arguments sign {float}.
Arguments dcaXY {float}.
Arguments dcaZ {float}.
Arguments trackLength {float}.
Arguments itsClusterMap {float}.
Arguments itsChi2NCl {float}.
Arguments tpcChi2NCl {float}.
Arguments trdChi2 {float}.
Arguments tofChi2 {float}.
Arguments hasITS {float}.
Arguments hasTPC {float}.
Arguments hasTRD {float}.
Arguments hasTOF {float}.
Arguments tpcNClsFound {float}.
Arguments tpcNClsCrossedRows {float}.
Arguments tpcCrossedRowsOverFindableCls {float}.
Arguments tpcFoundOverFindableCls {float}.
Arguments tpcFractionSharedCls {float}.
Arguments itsNCls {float}.
Arguments itsNClsInnerBarrel {float}.
Arguments tpcSignal {float}.
Arguments tofSignal {float}.
Arguments tofEvTime {float}.
Arguments mcParticle {float}.

(** ** Output tables *)

(** The columns of the four derived tables, in the order in which
    [fillDerivedTable] passes them to the cursors. *)
Record DPGCollision (float : Type) := mkDPGCollision {
  out_posZ : float;
  out_isEventReject : bool;
  out_runNumber : Z;
}.
Arguments mkDPGCollision {float}.
Arguments out_posZ {float}.
Arguments out_isEventReject {float}.
Arguments out_runNumber {float}.

Record DPGTrack (float : Type) := mkDPGTrack {
  trk_collisionId : Z;
  trk_pt : float;
  trk_eta : float;
  trk_phi : float;
  trk_ptReso : float;
  trk_flags : Z;
  trk_sign : Z;
  trk_dcaXY : float;
  trk_dcaZ : float;
  trk_length : float;
  trk_itsClusterMap : Z;
  trk_itsChi2NCl : float;
  trk_tpcChi2NCl : float;
  trk_trdChi2 : float;
  trk_tofChi2 : float;
  trk_hasITS : bool;
  trk_hasTPC : bool;
  trk_hasTRD : bool;
  trk_hasTOF : bool;
  trk_tpcNClsFound : Z;
  trk_tpcNClsCrossedRows : Z;
  trk_tpcCrossedRowsOverFindableCls : float;
  trk_tpcFoundOverFindableCls : float;
  trk_tpcFractionSharedCls : float;
  trk_itsNCls : Z;
  trk_itsNClsInnerBarrel : Z;
  trk_tpcSignal : float;
  trk_tofSignal : float;
}.
Arguments mkDPGTrack {float}.
Arguments trk_collisionId {float}.

Record DPGRecoParticle (float : Type) := mkDPGRecoParticle {
  reco_pt : float;
  reco_eta : float;
  reco_phi : float;
  reco_pdgCode : Z;
  reco_productionMode : Z;
}.
Arguments mkDPGRecoParticle {float}.
Arguments reco_pt {float}.
Arguments reco_eta {float}.
Arguments reco_phi {float}.
Arguments reco_pdgCode {float}.
Arguments reco_productionMode {float}.

Record DPGNonRecoParticle (float : Type) := mkDPGNonRecoParticle {
  nreco_collisionId : Z;
  nreco_pt : float;
  nreco_eta : float;
  nreco_phi : float;
  nreco_pdgCode : Z;
  nreco_productionMode : Z;
  nreco_vx : float;
  nreco_vy : float;
  nreco_vz : float;
}.
Arguments mkDPGNonRecoParticle {float}.
Arguments nreco_collisionId {float}.
Arguments nreco_pt {float}.
Arguments nreco_eta {float}.
Arguments nreco_phi {float}.
Arguments nreco_pdgCode {float}.
Arguments nreco_productionMode {float}.
Arguments nreco_vx {float}.
Arguments nreco_vy {float}.
Arguments nreco_vz {float}.

(** One write through one of the four cursors. *)
Inductive OutRecord (float : Type) :=
  | OutCollision (r : DPGCollision float)
  | OutTrack (r : DPGTrack float)
  | OutRecoParticle (r : DPGRecoParticle float)
  | OutNonRecoParticle (r : DPGNonRecoParticle float).
Arguments OutCollision {float}.
Arguments OutTrack {float}.
Arguments OutRecoParticle {float}.
Arguments OutNonRecoParticle {float}.

(** The mutable state of the task on the table path: the member
    [nTableEventCounter], the generator behind [rand()] and what has been
    written so far. *)
Record State (float : Type) := mkState {
  nTableEventCounter : Z;
  randStream : nat -> Z;
  outLog : list (OutRecord float);
}.
Arguments mkState {float}.
Arguments nTableEventCounter {float}.
Arguments randStream {float}.
Arguments outLog {float}.

(** ** The task *)

Section Task.
Context {float : Type} `{FloatOps float}.

(** *** Cursors *)

(** [table(...)]: append one row. *)
Definition emit (st : State float) (r : OutRecord float) : State float :=
  mkState (nTableEventCounter st) (randStream st) (outLog st ++ [r]).

Definition tableCollisions (log : list (OutRecord float)) : list (DPGCollision float) :=
  omap (fun r => match r with OutCollision c => Some c | _ => None end) log.

Definition tableTracks (log : list (OutRecord float)) : list (DPGTrack float) :=
  omap (fun r => match r with OutTrack t => Some t | _ => None end) log.

Definition tableRecoParticles (log : list (OutRecord float)) : list (DPGRecoParticle float) :=
  omap (fun r => match r with OutRecoParticle p => Some p | _ => None end) log.

Definition tableNonRecoParticles (log : list (OutRecord float)) : list (DPGNonRecoParticle float) :=
  omap (fun r => match r with OutNonRecoParticle p => Some p | _ => None end) log.

(** [Produces<T>::lastIndex()]: the position of the row written last by
    the cursor, [-1] before the first write. *)
Definition lastIndex {A : Type} (rows : list A) : Z :=
  Z.of_nat (List.length rows) - 1.

(** [rand()]: the next value of the generator. *)
Definition rand (st : State float) : Z * State float :=
  (randStream st 0%nat,
   mkState (nTableEventCounter st) (fun n => randStream st (S n)) (outLog st)).

(** *** Predicate evaluator *)

(** [isSelectedCollision<false>]: the instantiation called by the table
    path, which fills no histogram. *)
Definition isSelectedCollision (cfg : Config float) (collision : Collision float) : bool :=
  if selectGoodEvents cfg && negb (if isRun3 cfg then sel8 collision else sel7 collision)
  then false
  else true.

(** [isSelectedTrack<IS_MC>].  The charge test comes before
    [if constexpr (IS_MC)] and runs in both instantiations. *)
Definition isSelectedTrack (IS_MC : bool) (cfg : Config float) (track : Track float) : bool :=
  if negb (selectCharge cfg =? 0) && negb (selectCharge cfg =? sign track) then false
  else if IS_MC then
    match mcParticle track with
    | None =>
        if selectPrim cfg || selectSec cfg || negb (selectPID cfg =? 0) then false else true
    | Some particle =>
        let isPrimary := isPhysicalPrimary particle in
        if selectPrim cfg && negb isPrimary then false
        else if selectSec cfg && isPrimary then false
        else if negb (selectPID cfg =? 0) && negb (selectPID cfg =? absInt (pdgCode particle))
        then false
        else true
    end
  else true.

(** *** Derived-table writer *)

(** The row written by [tableTracks(...)] for [track]. *)
Definition trackRow (collisionId : Z) (track : Track float) : DPGTrack float :=
  mkDPGTrack collisionId
    (pt track) (eta track) (phi track) (fmul (pt track) (fsqrt (c1Pt21Pt2 track)))
    (flags track) (sign track)
    (dcaXY track) (dcaZ track) (trackLength track)
    (itsClusterMap track)
    (itsChi2NCl track) (tpcChi2NCl track) (trdChi2 track) (tofChi2 track)
    (hasITS track) (hasTPC track) (hasTRD track) (hasTOF track)
    (tpcNClsFound track) (tpcNClsCrossedRows track)
    (tpcCrossedRowsOverFindableCls track) (tpcFoundOverFindableCls track)
    (tpcFractionSharedCls track)
    (itsNCls track) (itsNClsInnerBarrel track) (tpcSignal track)
    (fsub (tofSignal track) (tofEvTime track)).

(** The first loop over the tracks: [++nTracks] for every selected one. *)
Definition countSelectedTracks (IS_MC : bool) (cfg : Config float)
    (tracks : list (Track float)) : nat :=
  foldl (fun nTracks track =>
           if negb (isSelectedTrack IS_MC cfg track) then nTracks else S nTracks)
        0%nat tracks.

(** The body of the second loop over the tracks.  The loop carries the
    task state, the vector [recoPartIndices] and the cursor [iTrack] into
    it.  [particleProduction] is assigned on every path before it is read,
    so it is a local of the iteration here. *)
Definition trackLoopBody (IS_MC : bool) (cfg : Config float)
    (acc : State float * list Z * nat) (track : Track float)
    : State float * list Z * nat :=
  let '(st, recoPartIndices, iTrack) := acc in
  if negb (isSelectedTrack IS_MC cfg track) then acc
  else
    let st := emit st (OutTrack (trackRow (lastIndex (tableCollisions (outLog st))) track)) in
    if IS_MC then
      match mcParticle track with
      | Some particle =>
          let recoPartIndices := <[iTrack := globalIndex particle]> recoPartIndices in
          let iTrack := S iTrack in
          let particleProduction :=
            if isPhysicalPrimary particle then 0
            else if getProcess particle =? 4 then 1
            else 2 in
          (emit st (OutRecoParticle
                      (mkDPGRecoParticle (mc_pt particle) (mc_eta particle) (mc_phi particle)
                                         (pdgCode particle) particleProduction)),
           recoPartIndices, iTrack)
      | None =>
          (emit st (OutRecoParticle
                      (mkDPGRecoParticle (pt track) (eta track) (phi track) 0 (-1))),
           recoPartIndices, iTrack)
      end
    else (st, recoPartIndices, iTrack).

(** The body of the loop over the truth particles of the collision. *)
Definition particleLoopBody (recoPartIndices : list Z)
    (st : State float) (particle : McParticle float) : State float :=
  let partReconstructed := bool_decide (globalIndex particle ∈ recoPartIndices) in
  if partReconstructed then st
  else
    let particleProduction :=
      if isPhysicalPrimary particle then 0
      else if getProcess particle =? 4 then 1
      else 2 in
    emit st (OutNonRecoParticle
               (mkDPGNonRecoParticle (lastIndex (tableCollisions (outLog st)))
                  (mc_pt particle) (mc_eta particle) (mc_phi particle)
                  (pdgCode particle) particleProduction
                  (vx particle) (vy particle) (vz particle))).

(** [particles.sliceBy(aod::mcparticle::mcCollisionId, id)]. *)
Definition sliceBy (particles : list (McParticle float)) (id : Z) : list (McParticle float) :=
  filter (fun particle => mcCollisionId particle = id) particles.

(** The sampling test: [fractionOfSampledEvents < 1.f && rand()/RAND_MAX >
    fractionOfSampledEvents], with the short-circuit of [&&]. *)
Definition notSampled (cfg : Config float) (st : State float) : bool * State float :=
  if flt (fractionOfSampledEvents cfg) float_one then
    let '(r, st') := rand st in
    (fgt (fdiv (float_of_int r) (float_of_int RAND_MAX)) (fractionOfSampledEvents cfg), st')
  else (false, st).

(** What [fillDerivedTable] does once the collision is admitted, from
    [tableCollisions(...)] on. *)
Definition writeTables (IS_MC : bool) (cfg : Config float) (st : State float)
    (collision : Collision float) (tracks : list (Track float))
    (particles : list (McParticle float)) : State float :=
  let st := emit st (OutCollision
                       (mkDPGCollision (posZ collision)
                          (if isRun3 cfg then sel8 collision else sel7 collision)
                          (runNumber collision))) in
  let nTracks := countSelectedTracks IS_MC cfg tracks in
  let recoPartIndices := replicate (if IS_MC then nTracks else 0%nat) 0 in
  let '(st, recoPartIndices, _) :=
    foldl (trackLoopBody IS_MC cfg) (st, recoPartIndices, 0%nat) tracks in
  if IS_MC then
    match mcCollision collision with
    | None => st
    | Some mcId =>
        let particlesInCollision := sliceBy particles mcId in
        foldl (particleLoopBody recoPartIndices) st particlesInCollision
    end
  else st.

(** [fillDerivedTable<IS_MC>]. *)
Definition fillDerivedTable (IS_MC : bool) (cfg : Config float) (st : State float)
    (collision : Collision float) (tracks : list (Track float))
    (particles : list (McParticle float)) : State float :=
  if negb (isSelectedCollision cfg collision) then st
  else if fgt (fabs (posZ collision)) (selectMaxVtxZ cfg) then st
  else
    let '(skip, st) := notSampled cfg st in
    if skip then st
    else if nTableEventCounter st >? targetNumberOfEvents cfg then st
    else
      let st := mkState (wrapInt (nTableEventCounter st + 1)) (randStream st) (outLog st) in
      writeTables IS_MC cfg st collision tracks particles.

(** [processTableData] and [processTableMC]. *)
Definition processTableData (cfg : Config float) (st : State float)
    (collision : Collision float) (tracks : list (Track float)) : State float :=
  fillDerivedTable false cfg st collision tracks [].

Definition processTableMC (cfg : Config float) (st : State float)
    (collision : Collision float) (tracks : list (Track float))
    (mcParticles : list (McParticle float)) : State float :=
  fillDerivedTable true cfg st collision tracks mcParticles.

End Task.

(** *** Initialisation *)

(** What [init] leaves behind: either the fatal log record, after which
    the framework stops the device, or the [info] records logged and the
    names booked in the histogram registry, in booking order. *)
Inductive InitOutcome :=
  | InitFatal (msg : string)
  | InitDone (info : list string) (histos : list string).

Definition eventHistos : list string :=
  ["Events/recoEff"; "Events/posX"; "Events/posY"; "Events/posZ"; "Events/posXY";
   "Events/posXvsNContrib"; "Events/posYvsNContrib"; "Events/posZvsNContrib";
   "Events/nContrib"; "Events/nContribVsMult"; "Events/vertexChi2";
   "Events/covXX"; "Events/covXY"; "Events/covXZ"; "Events/covYY"; "Events/covYZ";
   "Events/covZZ"; "Events/nTracks"]%string.

Definition eventResoHistos : list string :=
  ["Events/resoX"; "Events/resoY"; "Events/resoZ"]%string.

Definition kineHistos : list string :=
  ["Tracks/recoEff"; "Tracks/Kine/pt"; "Tracks/Kine/eta"; "Tracks/Kine/phi"]%string.

Definition kineResoHistos : list string :=
  ["Tracks/Kine/resoPt"; "Tracks/Kine/resoEta"; "Tracks/Kine/resoPhi"]%string.

Definition trackHistos : list string :=
  ["Tracks/Kine/relativeResoPt"; "Tracks/Kine/relativeResoPtMean";
   "Tracks/x"; "Tracks/y"; "Tracks/z"; "Tracks/alpha"; "Tracks/signed1Pt";
   "Tracks/snp"; "Tracks/tgl"; "Tracks/flags"; "Tracks/dcaXY"; "Tracks/dcaZ";
   "Tracks/dcaXYvsPt"; "Tracks/dcaZvsPt"; "Tracks/length";
   "Tracks/ITS/itsNCls"; "Tracks/ITS/itsChi2NCl"; "Tracks/ITS/itsHits";
   "Tracks/ITS/itsHitsUnfiltered"; "Tracks/ITS/hasITS"; "Tracks/ITS/hasITSANDhasTPC";
   "Tracks/TPC/tpcNClsFindable"; "Tracks/TPC/tpcNClsFound"; "Tracks/TPC/tpcNClsShared";
   "Tracks/TPC/tpcCrossedRows"; "Tracks/TPC/tpcFractionSharedCls";
   "Tracks/TPC/tpcCrossedRowsOverFindableCls"; "Tracks/TPC/tpcChi2NCl";
   "Tracks/TPC/hasTPC"]%string.

Definition iuHistos : list string :=
  ["Tracks/IU/Pt"; "Tracks/IU/Eta"; "Tracks/IU/Phi"; "Tracks/IU/x"; "Tracks/IU/y";
   "Tracks/IU/z"; "Tracks/IU/alpha"; "Tracks/IU/signed1Pt"; "Tracks/IU/snp";
   "Tracks/IU/tgl"; "Tracks/IUdeltaDCA/Pt"; "Tracks/IUdeltaDCA/Eta";
   "Tracks/IUdeltaDCA/Phi"; "Tracks/IUvsDCA/Pt"; "Tracks/IUvsDCA/Eta";
   "Tracks/IUvsDCA/Phi"]%string.

Definition iuFilteredHistos : list string :=
  ["Tracks/IUFiltered/Pt"; "Tracks/IUFiltered/Eta"; "Tracks/IUFiltered/Phi";
   "Tracks/IUFiltered/x"; "Tracks/IUFiltered/y"; "Tracks/IUFiltered/z";
   "Tracks/IUFiltered/alpha"; "Tracks/IUFiltered/signed1Pt"; "Tracks/IUFiltered/snp";
   "Tracks/IUFiltered/tgl"]%string.

(** [qaEventTrack::init]. *)
Definition init (sw : ProcessSwitches) : InitOutcome :=
  if doprocessTableData sw && doprocessTableMC sw then
    InitFatal "Cannot enable processTableData and processTableMC at the same time. Please choose one."
  else if negb (doprocessData sw) && negb (doprocessMC sw) then
    InitDone ["No enabled QA, all histograms are disabled"%string] []
  else
    InitDone []
      (eventHistos
       ++ (if doprocessMC sw then eventResoHistos else [])
       ++ kineHistos
       ++ (if doprocessMC sw then kineResoHistos else [])
       ++ trackHistos
       ++ (if doprocessDataIU sw then iuHistos else [])
       ++ (if doprocessDataIUFiltered sw then iuFilteredHistos else [])).

(** ** Notions of the specification *)

(** The production classes of a truth particle, with the value each is
    written as. *)
Inductive ProductionClass := Primary | SecondaryFromDecay | SecondaryOther.

Definition productionCode (k : ProductionClass) : Z :=
  match k with
  | Primary => 0
  | SecondaryFromDecay => 1
  | SecondaryOther => 2
  end.

Section Notions.
Context {float : Type} `{FloatOps float}.

(** The classification as the specification words it: primary when the
    physical-primary flag is set; otherwise from decay when the process
    code is 4; otherwise other. *)
Definition classify (particle : McParticle float) : ProductionClass :=
  match isPhysicalPrimary particle, bool_decide (getProcess particle = 4) with
  | true, _ => Primary
  | false, true => SecondaryFromDecay
  | false, false => SecondaryOther
  end.

(** The selection as the specification words it, one conjunct per
    requirement. *)
Definition chargeAccepted (cfg : Config float) (track : Track float) : bool :=
  negb (negb (selectCharge cfg =? 0) && negb (selectCharge cfg =? sign track)).

Definition truthAccepted (cfg : Config float) (track : Track float) : bool :=
  match mcParticle track with
  | None =>
      negb (selectPrim cfg) && negb (selectSec cfg) && (selectPID cfg =? 0)
  | Some particle =>
      negb (selectPrim cfg && negb (isPhysicalPrimary particle))
      && negb (selectSec cfg && isPhysicalPrimary particle)
      && negb (negb (selectPID cfg =? 0)
               && negb (selectPID cfg =? Z.abs (pdgCode particle)))
  end.

(** The tracks the writer admits, the truth particles their labels point
    to, and the identifiers of those. *)
Definition selectedTracks (IS_MC : bool) (cfg : Config float)
    (tracks : list (Track float)) : list (Track float) :=
  filter (fun track => isSelectedTrack IS_MC cfg track = true) tracks.

Definition matchedParticles (cfg : Config float)
    (tracks : list (Track float)) : list (McParticle float) :=
  omap mcParticle (selectedTracks true cfg tracks).

Definition matchedIndices (cfg : Config float) (tracks : list (Track float)) : list Z :=
  globalIndex <$> matchedParticles cfg tracks.

(** The rows an admitted call writes, given the output position [cid] of
    its Collision row. *)
Definition collisionRow (cfg : Config float) (collision : Collision float)
    : DPGCollision float :=
  mkDPGCollision (posZ collision)
    (if isRun3 cfg then sel8 collision else sel7 collision) (runNumber collision).

Definition recoRow (track : Track float) : DPGRecoParticle float :=
  match mcParticle track with
  | Some particle =>
      mkDPGRecoParticle (mc_pt particle) (mc_eta particle) (mc_phi particle)
        (pdgCode particle) (productionCode (classify particle))
  | None => mkDPGRecoParticle (pt track) (eta track) (phi track) 0 (-1)
  end.

Definition nonRecoRow (cid : Z) (particle : McParticle float) : DPGNonRecoParticle float :=
  mkDPGNonRecoParticle cid (mc_pt particle) (mc_eta particle) (mc_phi particle)
    (pdgCode particle) (productionCode (classify particle))
    (vx particle) (vy particle) (vz particle).

Definition trackRecords (IS_MC : bool) (cid : Z) (track : Track float)
    : list (OutRecord float) :=
  OutTrack (trackRow cid track)
  :: (if IS_MC then [OutRecoParticle (recoRow track)] else []).

(** The content of [recoPartIndices] when the loop over the tracks ends:
    the identifiers collected, then the slots of the admitted tracks
    without a label, which still hold the [0] the vector was built with. *)
Definition finalRecoPartIndices (cfg : Config float) (tracks : list (Track float)) : list Z :=
  matchedIndices cfg tracks
  ++ replicate (List.length (selectedTracks true cfg tracks)
                - List.length (matchedIndices cfg tracks))%nat 0.

(** The truth particles a non-reconstructed row is written for. *)
Definition nonRecoParticles (cfg : Config float) (collision : Collision float)
    (tracks : list (Track float)) (particles : list (McParticle float))
    : list (McParticle float) :=
  match mcCollision collision with
  | None => []
  | Some mcId =>
      filter (fun particle => globalIndex particle ∉ finalRecoPartIndices cfg tracks)
             (sliceBy particles mcId)
  end.

Definition nonRecoRecords (cfg : Config float) (cid : Z) (collision : Collision float)
    (tracks : list (Track float)) (particles : list (McParticle float))
    : list (OutRecord float) :=
  (fun particle => OutNonRecoParticle (nonRecoRow cid particle))
  <$> nonRecoParticles cfg collision tracks particles.

Definition childRecords (IS_MC : bool) (cfg : Config float) (cid : Z)
    (collision : Collision float) (tracks : list (Track float))
    (particles : list (McParticle float)) : list (OutRecord float) :=
  flat_map (trackRecords IS_MC cid) (selectedTracks IS_MC cfg tracks)
  ++ (if IS_MC then nonRecoRecords cfg cid collision tracks particles else []).

Definition callRecords (IS_MC : bool) (cfg : Config float) (cid : Z)
    (collision : Collision float) (tracks : list (Track float))
    (particles : list (McParticle float)) : list (OutRecord float) :=
  OutCollision (collisionRow cfg collision)
  :: childRecords IS_MC cfg cid collision tracks particles.

(** The back-reference a child row holds, if the row is a child row. *)
Definition backReference (r : OutRecord float) : option Z :=
  match r with
  | OutTrack t => Some (trk_collisionId t)
  | OutNonRecoParticle p => Some (nreco_collisionId p)
  | _ => None
  end.

Definition isCollisionRecord (r : OutRecord float) : bool :=
  match r with OutCollision _ => true | _ => false end.

(** The write at stream position [j] is the Collision row whose output
    position in [tableCollisions] is [k]. *)
Definition collisionWrittenAt (log : list (OutRecord float)) (j : nat) (k : Z) : Prop :=
  (exists c, log !! j = Some (OutCollision c))
  /\ k = Z.of_nat (List.length (tableCollisions (take j log))).

(** [r] is not a Collision row, and if it holds a back-reference, the
    back-reference is [cid]. *)
Definition childOf (cid : Z) (r : OutRecord float) : Prop :=
  isCollisionRecord r = false /\ forall k, backReference r = Some k -> k = cid.

(** Every child row of the stream refers to a Collision row written
    before it, and no other Collision row was written in between. *)
Definition wellReferenced (log : list (OutRecord float)) : Prop :=
  forall (i : nat) r k,
    log !! i = Some r -> backReference r = Some k ->
    exists j : nat,
      (j < i)%nat /\ collisionWrittenAt log j k
      /\ forall (m : nat) r', (j < m < i)%nat -> log !! m = Some r' ->
                              isCollisionRecord r' = false.

(** The collision passes the two cuts that come before the sampling. *)
Definition passesEventCuts (cfg : Config float) (collision : Collision float) : Prop :=
  isSelectedCollision cfg collision = true
  /\ fgt (fabs (posZ collision)) (selectMaxVtxZ cfg) = false.

(** A call admitted its collision when it wrote a Collision row. *)
Definition admitted (st st' : State float) : Prop :=
  exists row, tableCollisions (outLog st') = tableCollisions (outLog st) ++ [row].

(** Replacing the generator of a state. *)
Definition withRandStream (rs : nat -> Z) (st : State float) : State float :=
  mkState (nTableEventCounter st) rs (outLog st).

(** A processing run: the framework calls the process function once per
    collision, with the tracks of the collision and the truth tables. *)
Definition Input : Type :=
  Collision float * list (Track float) * list (McParticle float).

Definition run (IS_MC : bool) (cfg : Config float) (st : State float)
    (inputs : list Input) : State float :=
  foldl (fun st '(collision, tracks, particles) =>
           fillDerivedTable IS_MC cfg st collision tracks particles)
        st inputs.

(** No call of the run whose collision passes the two cuts is skipped by
    the sampling test: the test is switched off, or the draw of the call
    does not exceed the fraction. *)
Fixpoint noneSampledOut (IS_MC : bool) (cfg : Config float) (st : State float)
    (inputs : list Input) : Prop :=
  match inputs with
  | [] => True
  | (collision, tracks, particles) :: rest =>
      (passesEventCuts cfg collision -> (notSampled cfg st).1 = false)
      /\ noneSampledOut IS_MC cfg
           (fillDerivedTable IS_MC cfg st collision tracks particles) rest
  end.

(** The input tracks a call writes rows for, each with the output position
    of the Collision row of the call: the selected tracks of the call, in
    the order of the input, if the call wrote a Collision row, and none
    otherwise. *)
Definition callTracks (IS_MC : bool) (cfg : Config float) (st : State float)
    (input : Input) : list (Z * Track float) :=
  let '(collision, tracks, particles) := input in
  let st' := fillDerivedTable IS_MC cfg st collision tracks particles in
  if (List.length (tableCollisions (outLog st))
      <? List.length (tableCollisions (outLog st')))%nat
  then (fun track => (Z.of_nat (List.length (tableCollisions (outLog st))), track))
       <$> selectedTracks IS_MC cfg tracks
  else [].

(** The same over a run, call after call. *)
Fixpoint admittedTracks (IS_MC : bool) (cfg : Config float) (st : State float)
    (inputs : list Input) : list (Z * Track float) :=
  match inputs with
  | [] => []
  | input :: rest =>
      callTracks IS_MC cfg st input
      ++ admittedTracks IS_MC cfg
           (let '(collision, tracks, particles) := input in
            fillDerivedTable IS_MC cfg st collision tracks particles) rest
  end.

End Notions.

(** ** The QA path: histograms

    [processData], [processMC], [processDataIU] and [processDataIUFiltered]
    write to the [HistogramRegistry] only.  The registry is kept as the
    sequence of [histos.fill] calls made so far, each with the name of the
    histogram and the values passed; an integer argument is kept as the
    integer it is. *)

Inductive HistValue (float : Type) :=
  | HFloat (x : float)
  | HInt (n : Z).
Arguments HFloat {float}.
Arguments HInt {float}.

Record HistFill (float : Type) := mkFill {
  fillName : string;
  fillArgs : list (HistValue float);
}.
Arguments mkFill {float}.
Arguments fillName {float}.
Arguments fillArgs {float}.

(** The three float literals of the track partition. *)
Class FloatLiterals (float : Type) := {
  lit_0_1 : float;      (* 0.1f *)
  lit_0_8 : float;      (* 0.8f *)
  lit_1e10 : float;     (* 1e10f *)
}.

#[export] Instance binary64_literals : FloatLiterals PrimFloat.float := {
  lit_0_1 := PrimFloat.div 1%float 10%float;
  lit_0_8 := PrimFloat.div 8%float 10%float;
  lit_1e10 := 10000000000%float;
}.

(** The two [Configurable]s read by the partition [tracksIUFiltered]. *)
Record DebugFilters := mkDebugFilters {
  debugFilterkAcceptaceManualPtMin : bool;
  debugFilterkAcceptaceManualPtMinMax : bool;
}.

(** A row of the collision table as the QA path reads it: the columns of
    [Collision] and the vertex columns.  [mcPosX], [mcPosY], [mcPosZ] are
    the position of [collision.mcCollision()], read only when the label is
    set. *)
Record QACollision (float : Type) := mkQACollision {
  qaCollision : Collision float;
  posX : float;
  posY : float;
  numContrib : Z;
  chi2 : float;
  covXX : float;
  covXY : float;
  covXZ : float;
  covYY : float;
  covYZ : float;
  covZZ : float;
  mcPosX : float;
  mcPosY : float;
  mcPosZ : float;
}.
Arguments mkQACollision {float}.
Arguments qaCollision {float}.
Arguments posX {float}.
Arguments posY {float}.
Arguments numContrib {float}.
Arguments chi2 {float}.
Arguments covXX {float}.
Arguments covXY {float}.
Arguments covXZ {float}.
Arguments covYY {float}.
Arguments covYZ {float}.
Arguments covZZ {float}.
Arguments mcPosX {float}.
Arguments mcPosY {float}.
Arguments mcPosZ {float}.

(** A row of a track table as the QA path reads it: the columns of [Track],
    the collision the track belongs to and the track parameters. *)
Record QATrack (float : Type) := mkQATrack {
  qaTrack : Track float;
  collisionId : Z;
  alpha : float;
  trackX : float;                     (* track.x() *)
  trackY : float;                     (* track.y() *)
  trackZ : float;                     (* track.z() *)
  signed1Pt : float;
  snp : float;
  tgl : float;
  tpcNClsFindable : Z;
  tpcNClsShared : Z;
}.
Arguments mkQATrack {float}.
Arguments qaTrack {float}.
Arguments collisionId {float}.
Arguments alpha {float}.
Arguments trackX {float}.
Arguments trackY {float}.
Arguments trackZ {float}.
Arguments signed1Pt {float}.
Arguments snp {float}.
Arguments tgl {float}.
Arguments tpcNClsFindable {float}.
Arguments tpcNClsShared {float}.

(** A [soa::Filtered] table: the rows that pass the filters, and the size
    of the table they were taken from ([tableSize()]). *)
Record FilteredTracks (float : Type) := mkFilteredTracks {
  filteredRows : list (QATrack float);
  tableSize : Z;
}.
Arguments mkFilteredTracks {float}.
Arguments filteredRows {float}.
Arguments tableSize {float}.

Section Histograms.
Context {float : Type} `{FloatOps float} `{FloatLiterals float}.

(** Consecutive [histos.fill(...)] calls. *)
Definition fills (histos entries : list (HistFill float)) : list (HistFill float) :=
  histos ++ entries.

(** [isSelectedCollision<true>]: the instantiation that fills
    [Events/recoEff]. *)
Definition isSelectedCollisionFill (cfg : Config float) (histos : list (HistFill float))
    (collision : Collision float) : bool * list (HistFill float) :=
  let histos := fills histos [mkFill "Events/recoEff" [HInt 1]] in
  if selectGoodEvents cfg && negb (if isRun3 cfg then sel8 collision else sel7 collision)
  then (false, histos)
  else (true, fills histos [mkFill "Events/recoEff" [HInt 2]]).

(** [v & (1 << i)] for [i < 7]. *)
Definition hasLayer (v : Z) (i : nat) : bool :=
  negb (Z.land v (Z.shiftl 1 (Z.of_nat i)) =? 0).

(** The two loops over the seven ITS layers, which the source has once
    for the unfiltered tracks and once for the selected ones, with the
    histogram [name] as the only difference. *)
Definition fillItsHits (name : string) (histos : list (HistFill float))
    (itsClusterMap : Z) : list (HistFill float) :=
  let itsNhits :=
    foldl (fun n i => if hasLayer itsClusterMap i then n + 1 else n) 0 (seq 0 7) in
  let '(trkHasITS, histos) :=
    foldl (fun (acc : bool * list (HistFill float)) i =>
             if hasLayer itsClusterMap i
             then (true, fills acc.2 [mkFill name [HInt (Z.of_nat i); HInt itsNhits]])
             else acc)
          (false, histos) (seq 0 7) in
  if negb trkHasITS then fills histos [mkFill name [HInt (-1); HInt itsNhits]]
  else histos.

(** [1 << i] on [int], as the [uint32_t] that [track.flags() & (1 << i)]
    converts it to.  The language defines the shift for [i < 32]; for the
    other values of the loop the result is whatever the platform gives,
    [beyond i]. *)
Definition shiftLeftOne (beyond : nat -> Z) (i : nat) : Z :=
  if (i <? 32)%nat then Z.shiftl 1 (Z.of_nat i) else beyond i.

(** The loop over the 64 flag bits. *)
Definition fillFlags (beyond : nat -> Z) (histos : list (HistFill float)) (flags : Z)
    : list (HistFill float) :=
  foldl (fun histos i =>
           if negb (Z.land flags (shiftLeftOne beyond i) =? 0)
           then fills histos [mkFill "Tracks/flags" [HInt (Z.of_nat i)]]
           else histos)
        histos (seq 0 64).

(** The runs of consecutive [histos.fill] calls in the body of the loop
    over the selected tracks of [fillRecoHistograms]. *)
Definition kineEntries (track : QATrack float) : list (HistFill float) :=
  let trk := qaTrack track in
  [mkFill "Tracks/Kine/pt" [HFloat (pt trk)];
   mkFill "Tracks/Kine/eta" [HFloat (eta trk)];
   mkFill "Tracks/Kine/phi" [HFloat (phi trk)];
   mkFill "Tracks/Kine/relativeResoPt"
     [HFloat (pt trk); HFloat (fmul (pt trk) (fsqrt (c1Pt21Pt2 trk)))];
   mkFill "Tracks/Kine/relativeResoPtMean"
     [HFloat (pt trk); HFloat (fmul (pt trk) (fsqrt (c1Pt21Pt2 trk)))];
   mkFill "Tracks/alpha" [HFloat (alpha track)];
   mkFill "Tracks/x" [HFloat (trackX track)];
   mkFill "Tracks/y" [HFloat (trackY track)];
   mkFill "Tracks/z" [HFloat (trackZ track)];
   mkFill "Tracks/signed1Pt" [HFloat (signed1Pt track)];
   mkFill "Tracks/snp" [HFloat (snp track)];
   mkFill "Tracks/tgl" [HFloat (tgl track)]].

Definition dcaEntries (track : QATrack float) : list (HistFill float) :=
  let trk := qaTrack track in
  [mkFill "Tracks/dcaXY" [HFloat (dcaXY trk)];
   mkFill "Tracks/dcaZ" [HFloat (dcaZ trk)];
   mkFill "Tracks/dcaXYvsPt" [HFloat (dcaXY trk); HFloat (pt trk)];
   mkFill "Tracks/dcaZvsPt" [HFloat (dcaZ trk); HFloat (pt trk)];
   mkFill "Tracks/length" [HFloat (trackLength trk)];
   mkFill "Tracks/ITS/itsNCls" [HInt (itsNCls trk)];
   mkFill "Tracks/ITS/itsChi2NCl" [HFloat (itsChi2NCl trk)]].

Definition tpcEntries (track : QATrack float) : list (HistFill float) :=
  let trk := qaTrack track in
  [mkFill "Tracks/TPC/tpcNClsFindable" [HInt (tpcNClsFindable track)];
   mkFill "Tracks/TPC/tpcNClsFound" [HInt (tpcNClsFound trk)];
   mkFill "Tracks/TPC/tpcNClsShared" [HInt (tpcNClsShared track)];
   mkFill "Tracks/TPC/tpcCrossedRows" [HInt (tpcNClsCrossedRows trk)];
   mkFill "Tracks/TPC/tpcCrossedRowsOverFindableCls"
     [HFloat (tpcCrossedRowsOverFindableCls trk)];
   mkFill "Tracks/TPC/tpcFractionSharedCls" [HFloat (tpcFractionSharedCls trk)];
   mkFill "Tracks/TPC/tpcChi2NCl" [HFloat (tpcChi2NCl trk)]].

Definition kineResoEntries (trk : Track float) (particle : McParticle float)
    : list (HistFill float) :=
  [mkFill "Tracks/Kine/resoPt" [HFloat (fsub (pt trk) (mc_pt particle)); HFloat (pt trk)];
   mkFill "Tracks/Kine/resoEta" [HFloat (fsub (eta trk) (mc_eta particle)); HFloat (eta trk)];
   mkFill "Tracks/Kine/resoPhi" [HFloat (fsub (phi trk) (mc_phi particle)); HFloat (phi trk)]].

(** The body of the loop over the selected tracks of [fillRecoHistograms]. *)
Definition fillTrackHistograms (IS_MC : bool) (beyond : nat -> Z)
    (histos : list (HistFill float)) (track : QATrack float) : list (HistFill float) :=
  let trk := qaTrack track in
  let histos := fills histos (kineEntries track) in
  let histos := fillFlags beyond histos (flags trk) in
  let histos := fills histos (dcaEntries track) in
  let histos := fillItsHits "Tracks/ITS/itsHits" histos (itsClusterMap trk) in
  let histos := fills histos (tpcEntries track) in
  let histos :=
    if IS_MC then
      match mcParticle trk with
      | Some particle => fills histos (kineResoEntries trk particle)
      | None => histos
      end
    else histos in
  let histos :=
    if hasITS trk then fills histos [mkFill "Tracks/ITS/hasITS" [HFloat (pt trk)]]
    else histos in
  let histos :=
    if hasTPC trk then fills histos [mkFill "Tracks/TPC/hasTPC" [HFloat (pt trk)]]
    else histos in
  if hasITS trk && hasTPC trk
  then fills histos [mkFill "Tracks/ITS/hasITSANDhasTPC" [HFloat (pt trk)]]
  else histos.

(** The runs of consecutive [histos.fill] calls of [fillRecoHistograms]
    for the collision. *)
Definition eventEntries (collision : QACollision float) (nTracks : nat)
    : list (HistFill float) :=
  [mkFill "Events/posX" [HFloat (posX collision)];
   mkFill "Events/posY" [HFloat (posY collision)];
   mkFill "Events/posZ" [HFloat (posZ (qaCollision collision))];
   mkFill "Events/posXY" [HFloat (posX collision); HFloat (posY collision)];
   mkFill "Events/posXvsNContrib" [HFloat (posX collision); HInt (numContrib collision)];
   mkFill "Events/posYvsNContrib" [HFloat (posY collision); HInt (numContrib collision)];
   mkFill "Events/posZvsNContrib"
     [HFloat (posZ (qaCollision collision)); HInt (numContrib collision)];
   mkFill "Events/nContrib" [HInt (numContrib collision)];
   mkFill "Events/nContribVsMult" [HInt (numContrib collision); HInt (Z.of_nat nTracks)];
   mkFill "Events/vertexChi2" [HFloat (chi2 collision)];
   mkFill "Events/covXX" [HFloat (covXX collision)];
   mkFill "Events/covXY" [HFloat (covXY collision)];
   mkFill "Events/covXZ" [HFloat (covXZ collision)];
   mkFill "Events/covYY" [HFloat (covYY collision)];
   mkFill "Events/covYZ" [HFloat (covYZ collision)];
   mkFill "Events/covZZ" [HFloat (covZZ collision)];
   mkFill "Events/nTracks" [HInt (Z.of_nat nTracks)]].

Definition eventResoEntries (collision : QACollision float) : list (HistFill float) :=
  [mkFill "Events/resoX"
     [HFloat (fsub (posX collision) (mcPosX collision)); HInt (numContrib collision)];
   mkFill "Events/resoY"
     [HFloat (fsub (posY collision) (mcPosY collision)); HInt (numContrib collision)];
   mkFill "Events/resoZ"
     [HFloat (fsub (posZ (qaCollision collision)) (mcPosZ collision));
      HInt (numContrib collision)]].

Definition trackRecoEffEntries (tracks : FilteredTracks float) : list (HistFill float) :=
  [mkFill "Tracks/recoEff" [HInt 1; HInt (tableSize tracks)];
   mkFill "Tracks/recoEff" [HInt 2; HInt (Z.of_nat (List.length (filteredRows tracks)))]].

(** [fillRecoHistograms<IS_MC>]. *)
Definition fillRecoHistograms (IS_MC : bool) (cfg : Config float) (beyond : nat -> Z)
    (histos : list (HistFill float)) (collision : QACollision float)
    (tracks : FilteredTracks float) (tracksUnfiltered : list (Track float))
    : list (HistFill float) :=
  let '(selected, histos) := isSelectedCollisionFill cfg histos (qaCollision collision) in
  if negb selected then histos
  else
    let nTracks := countSelectedTracks IS_MC cfg (qaTrack <$> filteredRows tracks) in
    let histos := fills histos (eventEntries collision nTracks) in
    let histos :=
      if IS_MC then
        match mcCollision (qaCollision collision) with
        | Some _ => fills histos (eventResoEntries collision)
        | None => histos
        end
      else histos in
    let histos := fills histos (trackRecoEffEntries tracks) in
    let histos :=
      foldl (fun histos trackUnfiltered =>
               fillItsHits "Tracks/ITS/itsHitsUnfiltered" histos
                 (itsClusterMap trackUnfiltered))
            histos tracksUnfiltered in
    foldl (fun histos track =>
             if negb (isSelectedTrack IS_MC cfg (qaTrack track)) then histos
             else fillTrackHistograms IS_MC beyond histos track)
          histos (filteredRows tracks).

(** [processData] and [processMC]. *)
Definition processData (cfg : Config float) (beyond : nat -> Z)
    (histos : list (HistFill float)) (collision : QACollision float)
    (tracks : FilteredTracks float) (tracksUnfiltered : list (Track float))
    : list (HistFill float) :=
  fillRecoHistograms false cfg beyond histos collision tracks tracksUnfiltered.

Definition processMC (cfg : Config float) (beyond : nat -> Z)
    (histos : list (HistFill float)) (collision : QACollision float)
    (tracks : FilteredTracks float) (tracksUnfiltered : list (Track float))
    : list (HistFill float) :=
  fillRecoHistograms true cfg beyond histos collision tracks tracksUnfiltered.

(** The fills of one iteration of [processDataIU]. *)
Definition iuEntries (trk : Track float) (trkIU : QATrack float) : list (HistFill float) :=
  [mkFill "Tracks/IU/Pt" [HFloat (pt (qaTrack trkIU))];
   mkFill "Tracks/IU/Eta" [HFloat (eta (qaTrack trkIU))];
   mkFill "Tracks/IU/Phi" [HFloat (phi (qaTrack trkIU))];
   mkFill "Tracks/IU/alpha" [HFloat (alpha trkIU)];
   mkFill "Tracks/IU/x" [HFloat (trackX trkIU)];
   mkFill "Tracks/IU/y" [HFloat (trackY trkIU)];
   mkFill "Tracks/IU/z" [HFloat (trackZ trkIU)];
   mkFill "Tracks/IU/signed1Pt" [HFloat (signed1Pt trkIU)];
   mkFill "Tracks/IU/snp" [HFloat (snp trkIU)];
   mkFill "Tracks/IU/tgl" [HFloat (tgl trkIU)];
   mkFill "Tracks/IUdeltaDCA/Pt" [HFloat (fsub (pt (qaTrack trkIU)) (pt trk))];
   mkFill "Tracks/IUdeltaDCA/Eta" [HFloat (fsub (eta (qaTrack trkIU)) (eta trk))];
   mkFill "Tracks/IUdeltaDCA/Phi" [HFloat (fsub (phi (qaTrack trkIU)) (phi trk))];
   mkFill "Tracks/IUvsDCA/Pt" [HFloat (pt trk); HFloat (pt (qaTrack trkIU))];
   mkFill "Tracks/IUvsDCA/Eta" [HFloat (eta trk); HFloat (eta (qaTrack trkIU))];
   mkFill "Tracks/IUvsDCA/Phi" [HFloat (phi trk); HFloat (phi (qaTrack trkIU))]].

(** [processDataIU].  [tracksIU.iteratorAt(n)] past the end of the table
    reads outside of it; the call then has no defined result, [None]. *)
Definition processDataIU (cfg : Config float) (histos : list (HistFill float))
    (collision : Collision float) (tracksUnfiltered : list (Track float))
    (tracksIU : list (QATrack float)) : option (list (HistFill float)) :=
  if negb (isSelectedCollision cfg collision) then Some histos
  else
    fst <$>
    foldl (fun (acc : option (list (HistFill float) * nat)) trk =>
             match acc with
             | None => None
             | Some (histos, trackIndex) =>
                 if negb (isSelectedTrack false cfg trk) then Some (histos, trackIndex)
                 else
                   match tracksIU !! trackIndex with
                   | None => None
                   | Some trkIU => Some (fills histos (iuEntries trk trkIU), S trackIndex)
                   end
             end)
          (Some (histos, 0%nat)) tracksUnfiltered.

(** The expression of the partition [tracksIUFiltered]. *)
Definition tracksIUFiltered (dbg : DebugFilters) (track : QATrack float) : bool :=
  (Bool.eqb (debugFilterkAcceptaceManualPtMin dbg) false
   && Bool.eqb (debugFilterkAcceptaceManualPtMinMax dbg) false)
  || (Bool.eqb (debugFilterkAcceptaceManualPtMin dbg) true
      && fgt (pt (qaTrack track)) lit_0_1
      && flt (fabs (eta (qaTrack track))) lit_0_8)
  || (Bool.eqb (debugFilterkAcceptaceManualPtMinMax dbg) true
      && fgt (pt (qaTrack track)) lit_0_1
      && flt (pt (qaTrack track)) lit_1e10
      && flt (fabs (eta (qaTrack track))) lit_0_8).

(** The fills of one iteration of [processDataIUFiltered]. *)
Definition iuFilteredEntries (trkIU : QATrack float) : list (HistFill float) :=
  [mkFill "Tracks/IUFiltered/Pt" [HFloat (pt (qaTrack trkIU))];
   mkFill "Tracks/IUFiltered/Eta" [HFloat (eta (qaTrack trkIU))];
   mkFill "Tracks/IUFiltered/Phi" [HFloat (phi (qaTrack trkIU))];
   mkFill "Tracks/IUFiltered/alpha" [HFloat (alpha trkIU)];
   mkFill "Tracks/IUFiltered/x" [HFloat (trackX trkIU)];
   mkFill "Tracks/IUFiltered/y" [HFloat (trackY trkIU)];
   mkFill "Tracks/IUFiltered/z" [HFloat (trackZ trkIU)];
   mkFill "Tracks/IUFiltered/signed1Pt" [HFloat (signed1Pt trkIU)];
   mkFill "Tracks/IUFiltered/snp" [HFloat (snp trkIU)];
   mkFill "Tracks/IUFiltered/tgl" [HFloat (tgl trkIU)]].

(** [processDataIUFiltered].  [collisionIndex] is
    [collision.globalIndex()] and [tracksIUTable] the table the partition
    is taken from. *)
Definition processDataIUFiltered (cfg : Config float) (dbg : DebugFilters)
    (histos : list (HistFill float)) (collision : Collision float) (collisionIndex : Z)
    (tracksIUTable : list (QATrack float)) : list (HistFill float) :=
  if negb (isSelectedCollision cfg collision) then histos
  else
    let tracksIU :=
      filter (fun track => collisionId track = collisionIndex)
             (filter (fun track => tracksIUFiltered dbg track = true) tracksIUTable) in
    foldl (fun histos trkIU =>
             if negb (isSelectedTrack false cfg (qaTrack trkIU)) then histos
             else fills histos (iuFilteredEntries trkIU))
          histos tracksIU.

End Histograms.

(** ** Notions for the QA path *)

Section HistogramNotions.
Context {float : Type} `{FloatOps float} `{FloatLiterals float}.

(** How many fills of the histogram [name] a sequence holds. *)
Definition fillCount (name : string) (entries : list (HistFill float)) : nat :=
  List.length (filter (fun f => fillName f = name) entries).

(** How many fills of [Events/recoEff] at the value [bin] a sequence
    holds. *)
Definition isRecoEffFill (bin : Z) (f : HistFill float) : bool :=
  bool_decide (fillName f = "Events/recoEff"%string)
  && match fillArgs f with
     | HInt n :: _ => n =? bin
     | _ => false
     end.

Definition recoEffCount (bin : Z) (entries : list (HistFill float)) : nat :=
  List.length (filter (fun f => isRecoEffFill bin f = true) entries).

(** The ITS layers, 0 to 6, whose bit is set in a cluster map. *)
Definition layersHit (itsClusterMap : Z) : list nat :=
  filter (fun i => Z.testbit itsClusterMap (Z.of_nat i) = true) (seq 0 7).

(** The ITS-hit fills of one track as a function of its cluster map: one
    fill per layer hit, in increasing order of the layer, each with the
    number of layers hit; for a track without any hit, one fill at layer
    [-1] with [0] hits. *)
Definition itsHitEntries (name : string) (itsClusterMap : Z) : list (HistFill float) :=
  match layersHit itsClusterMap with
  | [] => [mkFill name [HInt (-1); HInt 0]]
  | layers =>
      (fun i => mkFill name [HInt (Z.of_nat i); HInt (Z.of_nat (List.length layers))])
      <$> layers
  end.

(** What the body of the track loop of [fillRecoHistograms] appends for
    one selected track. *)
Definition matchingEntries (trk : Track float) : list (HistFill float) :=
  (if hasITS trk then [mkFill "Tracks/ITS/hasITS" [HFloat (pt trk)]] else [])
  ++ (if hasTPC trk then [mkFill "Tracks/TPC/hasTPC" [HFloat (pt trk)]] else [])
  ++ (if hasITS trk && hasTPC trk
      then [mkFill "Tracks/ITS/hasITSANDhasTPC" [HFloat (pt trk)]] else []).

Definition trackTailEntries (IS_MC : bool) (beyond : nat -> Z) (track : QATrack float)
    : list (HistFill float) :=
  fillFlags beyond [] (flags (qaTrack track))
  ++ dcaEntries track
  ++ itsHitEntries "Tracks/ITS/itsHits" (itsClusterMap (qaTrack track))
  ++ tpcEntries track
  ++ (if IS_MC then
        match mcParticle (qaTrack track) with
        | Some particle => kineResoEntries (qaTrack track) particle
        | None => []
        end
      else [])
  ++ matchingEntries (qaTrack track).

Definition trackEntries (IS_MC : bool) (beyond : nat -> Z) (track : QATrack float)
    : list (HistFill float) :=
  kineEntries track ++ trackTailEntries IS_MC beyond track.

(** The names the fills of [trackTailEntries] and of
    [selectedCollisionEntries] carry. *)
Definition trackTailHistos (IS_MC : bool) : list string :=
  (if IS_MC then kineResoHistos else []) ++ drop 2 trackHistos.

Definition selectedCollisionHistos (IS_MC : bool) : list string :=
  drop 1 eventHistos ++ (if IS_MC then eventResoHistos else [])
  ++ kineHistos ++ (if IS_MC then kineResoHistos else [])
  ++ trackHistos.

(** The tracks of a filtered table that [isSelectedTrack] accepts. *)
Definition selectedRows (IS_MC : bool) (cfg : Config float) (tracks : FilteredTracks float)
    : list (QATrack float) :=
  filter (fun track => isSelectedTrack IS_MC cfg (qaTrack track) = true)
         (filteredRows tracks).

(** What one call of [fillRecoHistograms] appends for a selected
    collision, after the two fills of [Events/recoEff]. *)
Definition selectedCollisionEntries (IS_MC : bool) (cfg : Config float) (beyond : nat -> Z)
    (collision : QACollision float) (tracks : FilteredTracks float)
    (tracksUnfiltered : list (Track float)) : list (HistFill float) :=
  eventEntries collision (List.length (selectedRows IS_MC cfg tracks))
  ++ (if IS_MC then
        match mcCollision (qaCollision collision) with
        | Some _ => eventResoEntries collision
        | None => []
        end
      else [])
  ++ trackRecoEffEntries tracks
  ++ flat_map (fun trackUnfiltered =>
                 itsHitEntries "Tracks/ITS/itsHitsUnfiltered" (itsClusterMap trackUnfiltered))
              tracksUnfiltered
  ++ flat_map (trackEntries IS_MC beyond) (selectedRows IS_MC cfg tracks).

(** The names [fillRecoHistograms<IS_MC>] can fill. *)
Definition recoHistos (IS_MC : bool) : list string :=
  eventHistos ++ (if IS_MC then eventResoHistos else [])
  ++ kineHistos ++ (if IS_MC then kineResoHistos else [])
  ++ trackHistos.

(** A pass of [processData] or [processMC] over the collisions of a data
    frame. *)
Definition QAInput : Type :=
  QACollision float * FilteredTracks float * list (Track float).

Definition runQA (IS_MC : bool) (cfg : Config float) (beyond : nat -> Z)
    (histos : list (HistFill float)) (inputs : list QAInput) : list (HistFill float) :=
  foldl (fun histos '(collision, tracks, tracksUnfiltered) =>
           fillRecoHistograms IS_MC cfg beyond histos collision tracks tracksUnfiltered)
        histos inputs.

End HistogramNotions.

(** ** Concrete inputs

    The task with its default [Configurable] values, and small inputs on
    which the properties below are run, on binary64 floats. *)

Definition defaultConfig : Config PrimFloat.float :=
  mkConfig false true 100%float 10000000 1%float 0 false false 0.

(** The defaults with [targetNumberOfEvents = 5]. *)
Definition configTarget5 : Config PrimFloat.float :=
  mkConfig false true 100%float 5 1%float 0 false false 0.

(** The defaults with [selectPID = 211]. *)
Definition configPions : Config PrimFloat.float :=
  mkConfig false true 100%float 10000000 1%float 0 false false 211.

(** The defaults with [selectPrim], [selectSec] and [selectPID] set. *)
Definition configTruthCuts : Config PrimFloat.float :=
  mkConfig false true 100%float 10000000 1%float 0 true true 2212.

(** A generator that returns 0 forever, and one that returns [RAND_MAX]. *)
Definition randZero : nat -> Z := fun _ => 0.
Definition randMax : nat -> Z := fun _ => RAND_MAX.

Definition emptyState (count : Z) : State PrimFloat.float := mkState count randZero [].

(** A truth particle at rest at the origin. *)
Definition truthParticle (index mcCollisionIndex : Z) (primary : bool) (process pdg : Z)
    : McParticle PrimFloat.float :=
  mkMcParticle index mcCollisionIndex primary process pdg
    1%float 0%float 0%float 0%float 0%float 0%float.

(** A positive track with all columns at 0 but [pt]. *)
Definition plainTrack (label : option (McParticle PrimFloat.float)) : Track PrimFloat.float :=
  mkTrack 1%float 0%float 0%float 0%float 0 1 0%float 0%float 0%float 0
    0%float 0%float 0%float 0%float true true false false 0 0
    0%float 0%float 0%float 0 0 0%float 0%float 0%float label.

(** A collision that passes [sel7], at [z], with the given truth label. *)
Definition collisionAt (z : PrimFloat.float) (label : option Z) : Collision PrimFloat.float :=
  mkCollision z true false 300000 label.

(** A collision that fails [sel7]. *)
Definition badCollision : Collision PrimFloat.float :=
  mkCollision 0%float false false 300000 (Some 0).

(** Five truth particles of truth collision 0. *)
Definition particle0 := truthParticle 0 0 true 0 211.
Definition particle1 := truthParticle 1 0 true 0 (-211).
Definition particle2 := truthParticle 2 0 false 4 2212.
Definition particle3 := truthParticle 3 0 false 23 11.
Definition particle4 := truthParticle 4 0 true 0 321.
Definition fiveParticles : list (McParticle PrimFloat.float) :=
  [particle0; particle1; particle2; particle3; particle4].

(** The defaults with [fractionOfSampledEvents = 0.5]. *)
Definition configHalfSampled : Config PrimFloat.float :=
  mkConfig false true 100%float 10000000 (PrimFloat.div 1%float 2%float) 0 false false 0.

(** [targetNumberOfEvents = 5] with [fractionOfSampledEvents = 0.5]. *)
Definition configTarget5Sampled : Config PrimFloat.float :=
  mkConfig false true 100%float 5 (PrimFloat.div 1%float 2%float) 0 false false 0.

(** The defaults with [selectPID = -211]. *)
Definition configNegativePID : Config PrimFloat.float :=
  mkConfig false true 100%float 10000000 1%float 0 false false (-211).

(** The defaults with [selectCharge = -1]. *)
Definition configNegativeCharge : Config PrimFloat.float :=
  mkConfig false true 100%float 10000000 1%float (-1) false false 0.

(** [plainTrack] with a charge sign and a transverse momentum. *)
Definition chargedTrack (charge : Z) (momentum : PrimFloat.float) : Track PrimFloat.float :=
  mkTrack momentum 0%float 0%float 0%float 0 charge 0%float 0%float 0%float 5
    0%float 0%float 0%float 0%float true true false false 0 0
    0%float 0%float 0%float 0 0 0%float 0%float 0%float None.

(** Rows of the QA tables around the rows above. *)
Definition qaCollisionAt (z : PrimFloat.float) (label : option Z)
    : QACollision PrimFloat.float :=
  mkQACollision (collisionAt z label) 0%float 0%float 10 1%float
    0%float 0%float 0%float 0%float 0%float 0%float 0%float 0%float 0%float.

Definition qaBadCollision : QACollision PrimFloat.float :=
  mkQACollision badCollision 0%float 0%float 10 1%float
    0%float 0%float 0%float 0%float 0%float 0%float 0%float 0%float 0%float.

Definition qaRow (trk : Track PrimFloat.float) (collisionIndex : Z)
    : QATrack PrimFloat.float :=
  mkQATrack trk collisionIndex 0%float 0%float 0%float 0%float 1%float 0%float 0%float
    100 0.

(** A platform on which the shift count of [1 << i] is taken modulo 32. *)
Definition shiftCountMod32 : nat -> Z := fun i => Z.shiftl 1 (Z.of_nat (i mod 32)).

Definition onlyProcessData : ProcessSwitches := mkSwitches true false false false false false.
Definition dataAndIU : ProcessSwitches := mkSwitches true true true false false false.
Definition onlyIU : ProcessSwitches := mkSwitches false true false false false false.

Definition bothTableModes : ProcessSwitches := mkSwitches false true true true true true.
Definition onlyTableMC : ProcessSwitches := mkSwitches false true true true false true.

(** * Properties *)

Section Properties.
Context {float : Type} `{FloatOps float}.

Implicit Types (cfg : Config float) (st : State float) (collision : Collision float).
Implicit Types (track : Track float) (tracks : list (Track float)).
Implicit Types (particle : McParticle float) (particles : list (McParticle float)).
Implicit Types (log : list (OutRecord float)).

(** ** Projections of the output stream *)

Lemma tableCollisions_app log1 log2 :
  tableCollisions (log1 ++ log2) = tableCollisions log1 ++ tableCollisions log2.
Proof. unfold tableCollisions. apply omap_app. Qed.

Lemma tableTracks_app log1 log2 :
  tableTracks (log1 ++ log2) = tableTracks log1 ++ tableTracks log2.
Proof. unfold tableTracks. apply omap_app. Qed.

Lemma tableRecoParticles_app log1 log2 :
  tableRecoParticles (log1 ++ log2) = tableRecoParticles log1 ++ tableRecoParticles log2.
Proof. unfold tableRecoParticles. apply omap_app. Qed.

Lemma tableNonRecoParticles_app log1 log2 :
  tableNonRecoParticles (log1 ++ log2)
  = tableNonRecoParticles log1 ++ tableNonRecoParticles log2.
Proof. unfold tableNonRecoParticles. apply omap_app. Qed.

(** ** Machine integers *)

Lemma wrapInt_in_range (z : Z) : INT_MIN <= z <= INT_MAX -> wrapInt z = z.
Proof.
  unfold INT_MIN, INT_MAX, wrapInt. intros Hz. rewrite Z.mod_small by lia. lia.
Qed.

Lemma absInt_in_range (z : Z) : INT_MIN < z <= INT_MAX -> absInt z = Z.abs z.
Proof.
  intros Hz. unfold absInt. apply wrapInt_in_range.
  unfold INT_MIN, INT_MAX in *. lia.
Qed.

(** The two values outside the arithmetic of the integers. *)
Lemma wrapInt_overflow : wrapInt (INT_MAX + 1) = INT_MIN.
Proof. reflexivity. Qed.

Lemma absInt_INT_MIN : absInt INT_MIN = INT_MIN.
Proof. reflexivity. Qed.

(** [std::abs] of an [int] is [INT_MIN] or not negative. *)
Lemma absInt_sign (z : Z) :
  INT_MIN <= z <= INT_MAX -> absInt z = INT_MIN \/ 0 <= absInt z.
Proof.
  intros Hz. destruct (Z.eq_dec z INT_MIN) as [->|Hne]; [now left|right].
  rewrite absInt_in_range by lia. lia.
Qed.

(** ** Event sampler: the rejecting branches *)

(** C6.  A collision that fails [isSelectedCollision] leaves the whole
    task state as it was: nothing is written, the running count is not
    incremented and the generator is not read, whatever the vertex cut,
    the sampling fraction, the target and the generator are. *)
Theorem unselected_collision_not_admitted
    (IS_MC : bool) cfg st collision tracks particles :
  isSelectedCollision cfg collision = false ->
  fillDerivedTable IS_MC cfg st collision tracks particles = st.
Proof.
  intros Hsel. unfold fillDerivedTable. now rewrite Hsel.
Qed.

(** C3.  A collision with [abs(posZ) > selectMaxVtxZ] leaves the whole
    task state as it was: no row is written and the running count is not
    incremented. *)
Theorem vertex_cut_rejects
    (IS_MC : bool) cfg st collision tracks particles :
  fgt (fabs (posZ collision)) (selectMaxVtxZ cfg) = true ->
  fillDerivedTable IS_MC cfg st collision tracks particles = st.
Proof.
  intros Hz. unfold fillDerivedTable.
  destruct (isSelectedCollision cfg collision); simpl; [|reflexivity].
  now rewrite Hz.
Qed.

(** ** Determinism without sampling *)

Lemma notSampled_off cfg st :
  flt (fractionOfSampledEvents cfg) float_one = false ->
  notSampled cfg st = (false, st).
Proof. intros Hf. unfold notSampled. now rewrite Hf. Qed.

(** The writer never looks at the generator. *)
Lemma emit_randStream st r : randStream (emit st r) = randStream st.
Proof. reflexivity. Qed.

Lemma emit_counter st r : nTableEventCounter (emit st r) = nTableEventCounter st.
Proof. reflexivity. Qed.

Lemma trackLoopBody_withRandStream (IS_MC : bool) cfg rs st idx i track :
  trackLoopBody IS_MC cfg (withRandStream rs st, idx, i) track
  = let '(st', idx', i') := trackLoopBody IS_MC cfg (st, idx, i) track in
    (withRandStream rs st', idx', i').
Proof.
  unfold trackLoopBody.
  destruct (isSelectedTrack IS_MC cfg track); simpl; [|reflexivity].
  destruct IS_MC; [|reflexivity].
  destruct (mcParticle track); reflexivity.
Qed.

Lemma trackLoop_withRandStream (IS_MC : bool) cfg rs tracks st idx i :
  foldl (trackLoopBody IS_MC cfg) (withRandStream rs st, idx, i) tracks
  = let '(st', idx', i') := foldl (trackLoopBody IS_MC cfg) (st, idx, i) tracks in
    (withRandStream rs st', idx', i').
Proof.
  revert st idx i. induction tracks as [|track tracks IH]; intros st idx i.
  - reflexivity.
  - cbn [foldl]. rewrite trackLoopBody_withRandStream.
    destruct (trackLoopBody IS_MC cfg (st, idx, i) track) as [[st1 idx1] i1].
    apply IH.
Qed.

Lemma particleLoop_withRandStream rs idx particles st :
  foldl (particleLoopBody idx) (withRandStream rs st) particles
  = withRandStream rs (foldl (particleLoopBody idx) st particles).
Proof.
  revert st. induction particles as [|particle particles IH]; intros st.
  - reflexivity.
  - cbn [foldl]. rewrite <- IH. f_equal.
    unfold particleLoopBody. now destruct (bool_decide _).
Qed.

Lemma writeTables_withRandStream (IS_MC : bool) cfg rs st collision tracks particles :
  writeTables IS_MC cfg (withRandStream rs st) collision tracks particles
  = withRandStream rs (writeTables IS_MC cfg st collision tracks particles).
Proof.
  unfold writeTables.
  change (emit (withRandStream rs st) ?r) with (withRandStream rs (emit st r)).
  rewrite trackLoop_withRandStream.
  destruct (foldl _ _ tracks) as [[st1 idx1] i1].
  destruct IS_MC; [|reflexivity].
  destruct (mcCollision collision); [|reflexivity].
  apply particleLoop_withRandStream.
Qed.

(** C8.  When the sampling fraction is not below [1.f], two runs of the
    writer on the same input and the same running count and tables, with
    generators that differ in any way, leave the same running count and
    the same rows, and neither run reads its generator. *)
Theorem deterministic_without_sampling
    (IS_MC : bool) cfg (rs1 rs2 : nat -> Z) (count : Z) log collision tracks particles :
  flt (fractionOfSampledEvents cfg) float_one = false ->
  let st1 := fillDerivedTable IS_MC cfg (mkState count rs1 log) collision tracks particles in
  let st2 := fillDerivedTable IS_MC cfg (mkState count rs2 log) collision tracks particles in
  outLog st1 = outLog st2
  /\ nTableEventCounter st1 = nTableEventCounter st2
  /\ randStream st1 = rs1 /\ randStream st2 = rs2.
Proof.
  intros Hf.
  assert (Hgen : forall rs,
    fillDerivedTable IS_MC cfg (mkState count rs log) collision tracks particles
    = withRandStream rs
        (fillDerivedTable IS_MC cfg (mkState count rs1 log) collision tracks particles)).
  { intros rs. unfold fillDerivedTable.
    destruct (isSelectedCollision cfg collision); simpl; [|reflexivity].
    destruct (fgt _ _); [reflexivity|].
    rewrite !notSampled_off by assumption. simpl.
    destruct (count >? targetNumberOfEvents cfg); [reflexivity|].
    apply (writeTables_withRandStream IS_MC cfg rs
             (mkState (wrapInt (count + 1)) rs1 log)). }
  intros st1 st2. subst st1 st2.
  pose proof (Hgen rs1) as E1. rewrite (Hgen rs2).
  repeat split; try reflexivity. now rewrite E1.
Qed.

(** ** The writer, row by row *)

Lemma production_chain particle :
  (if isPhysicalPrimary particle then 0
   else if getProcess particle =? 4 then 1 else 2)
  = productionCode (classify particle).
Proof.
  unfold classify. destruct (isPhysicalPrimary particle); [reflexivity|].
  destruct (Z.eqb_spec (getProcess particle) 4) as [E|E].
  - now rewrite bool_decide_eq_true_2.
  - now rewrite bool_decide_eq_false_2.
Qed.

Lemma countSelectedTracks_length (IS_MC : bool) cfg tracks :
  countSelectedTracks IS_MC cfg tracks = List.length (selectedTracks IS_MC cfg tracks).
Proof.
  unfold countSelectedTracks, selectedTracks.
  enough (Hgen : forall n,
    foldl (fun nTracks track =>
             if negb (isSelectedTrack IS_MC cfg track) then nTracks else S nTracks) n tracks
    = (n + List.length (filter (fun track => isSelectedTrack IS_MC cfg track = true) tracks))%nat)
    by apply Hgen.
  induction tracks as [|track tracks IH]; intros n; cbn [foldl].
  - simpl. lia.
  - rewrite IH.
    destruct (isSelectedTrack IS_MC cfg track) eqn:E; simpl.
    + rewrite filter_cons_True by exact E. simpl. lia.
    + rewrite filter_cons_False by (rewrite E; discriminate). reflexivity.
Qed.

Lemma matched_le_selected cfg tracks :
  (List.length (matchedIndices cfg tracks)
   <= List.length (selectedTracks true cfg tracks))%nat.
Proof.
  unfold matchedIndices, matchedParticles. rewrite length_fmap.
  induction (selectedTracks true cfg tracks) as [|track sel IH]; csimpl; [lia|].
  destruct (mcParticle track); csimpl; lia.
Qed.

Lemma insert_next_slot (idx : list Z) (k : nat) (g : Z) :
  <[List.length idx := g]> (idx ++ replicate (S k) 0) = (idx ++ [g]) ++ replicate k 0.
Proof.
  rewrite insert_app_r_alt by lia. rewrite Nat.sub_diag. simpl.
  now rewrite <- app_assoc.
Qed.

Lemma lastIndex_emit_child st r :
  isCollisionRecord r = false ->
  lastIndex (tableCollisions (outLog (emit st r))) = lastIndex (tableCollisions (outLog st)).
Proof.
  intros Hr. simpl. rewrite tableCollisions_app.
  destruct r; try discriminate; simpl; now rewrite app_nil_r.
Qed.

Lemma selectedTracks_cons (IS_MC : bool) cfg track tracks :
  selectedTracks IS_MC cfg (track :: tracks)
  = if isSelectedTrack IS_MC cfg track
    then track :: selectedTracks IS_MC cfg tracks
    else selectedTracks IS_MC cfg tracks.
Proof.
  unfold selectedTracks. destruct (isSelectedTrack IS_MC cfg track) eqn:E.
  - now rewrite filter_cons_True.
  - rewrite filter_cons_False; [reflexivity|]. now rewrite E.
Qed.

Lemma matchedIndices_cons cfg track tracks :
  matchedIndices cfg (track :: tracks)
  = if isSelectedTrack true cfg track
    then match mcParticle track with
         | Some particle => globalIndex particle :: matchedIndices cfg tracks
         | None => matchedIndices cfg tracks
         end
    else matchedIndices cfg tracks.
Proof.
  unfold matchedIndices, matchedParticles. rewrite selectedTracks_cons.
  destruct (isSelectedTrack true cfg track); [|reflexivity].
  csimpl. now destruct (mcParticle track).
Qed.

Lemma state_eta st log :
  log = outLog st -> mkState (nTableEventCounter st) (randStream st) log = st.
Proof. intros ->. now destruct st. Qed.

Lemma trackRecords_mc (cid : Z) track :
  trackRecords true cid track
  = [OutTrack (trackRow cid track); OutRecoParticle (recoRow track)].
Proof. reflexivity. Qed.

Lemma trackRecords_data (cid : Z) track :
  trackRecords false cid track = [OutTrack (trackRow cid track)].
Proof. reflexivity. Qed.

(** The loop over the tracks in Monte Carlo mode: two rows per admitted
    track, and the identifiers of the labels stored from the slot the
    cursor starts at. *)
Lemma trackLoop_mc cfg tracks : forall st (idx : list Z) (k : nat),
  (List.length (matchedIndices cfg tracks) <= k)%nat ->
  foldl (trackLoopBody true cfg) (st, idx ++ replicate k 0, List.length idx) tracks
  = (mkState (nTableEventCounter st) (randStream st)
       (outLog st
        ++ flat_map (trackRecords true (lastIndex (tableCollisions (outLog st))))
                    (selectedTracks true cfg tracks)),
     idx ++ matchedIndices cfg tracks
         ++ replicate (k - List.length (matchedIndices cfg tracks)) 0,
     (List.length idx + List.length (matchedIndices cfg tracks))%nat).
Proof.
  induction tracks as [|track tracks IH]; intros st idx k Hk.
  - cbn [foldl]. unfold matchedIndices, matchedParticles, selectedTracks. csimpl.
    rewrite Nat.sub_0_r, Nat.add_0_r, app_nil_r. now rewrite state_eta.
  - cbn [foldl]. rewrite matchedIndices_cons in Hk |- *. rewrite selectedTracks_cons.
    unfold trackLoopBody at 2.
    destruct (isSelectedTrack true cfg track); cbn [negb].
    + destruct (mcParticle track) as [particle|] eqn:Hlabel.
      * destruct k as [|k]; [simpl in Hk; lia|].
        rewrite insert_next_slot.
        replace (S (List.length idx)) with (List.length (idx ++ [globalIndex particle]))
          by (rewrite length_app; simpl; lia).
        rewrite IH by (simpl in Hk; lia).
        rewrite !lastIndex_emit_child by reflexivity.
        cbn [flat_map]. rewrite trackRecords_mc. unfold recoRow.
        rewrite Hlabel, production_chain.
        f_equal; [f_equal|].
        -- unfold emit. cbn [nTableEventCounter randStream outLog].
           now rewrite <- !app_assoc.
        -- rewrite <- app_assoc. reflexivity.
        -- rewrite length_app. simpl. lia.
      * rewrite IH by exact Hk.
        rewrite !lastIndex_emit_child by reflexivity.
        cbn [flat_map]. rewrite trackRecords_mc. unfold recoRow. rewrite Hlabel.
        f_equal. unfold emit. cbn [nTableEventCounter randStream outLog].
        now rewrite <- !app_assoc.
    + now rewrite IH.
Qed.

(** The loop over the tracks in data mode: one row per admitted track;
    the (empty) vector and the cursor are not touched. *)
Lemma trackLoop_data cfg tracks : forall st (idx : list Z) (i : nat),
  foldl (trackLoopBody false cfg) (st, idx, i) tracks
  = (mkState (nTableEventCounter st) (randStream st)
       (outLog st
        ++ flat_map (trackRecords false (lastIndex (tableCollisions (outLog st))))
                    (selectedTracks false cfg tracks)),
     idx, i).
Proof.
  induction tracks as [|track tracks IH]; intros st idx i.
  - cbn [foldl]. unfold selectedTracks. csimpl. rewrite app_nil_r. now rewrite state_eta.
  - cbn [foldl]. rewrite selectedTracks_cons. unfold trackLoopBody at 2.
    destruct (isSelectedTrack false cfg track); cbn [negb].
    + rewrite IH. rewrite !lastIndex_emit_child by reflexivity.
      cbn [flat_map]. rewrite trackRecords_data.
      f_equal. unfold emit. cbn [nTableEventCounter randStream outLog].
      now rewrite <- !app_assoc.
    + now rewrite IH.
Qed.

(** The loop over the truth particles: one row per particle whose
    identifier is not found in [recoPartIndices]. *)
Lemma particleLoop_spec (idx : list Z) particles : forall st,
  foldl (particleLoopBody idx) st particles
  = mkState (nTableEventCounter st) (randStream st)
      (outLog st
       ++ ((fun particle =>
              OutNonRecoParticle (nonRecoRow (lastIndex (tableCollisions (outLog st))) particle))
           <$> filter (fun particle => globalIndex particle ∉ idx) particles)).
Proof.
  induction particles as [|particle particles IH]; intros st.
  - cbn [foldl]. csimpl. rewrite app_nil_r. now rewrite state_eta.
  - cbn [foldl]. unfold particleLoopBody at 2.
    destruct (bool_decide (globalIndex particle ∈ idx)) eqn:E.
    + apply bool_decide_eq_true_1 in E.
      rewrite IH. now rewrite filter_cons_False by (intros Hn; now apply Hn).
    + apply bool_decide_eq_false_1 in E.
      rewrite IH. rewrite filter_cons_True by exact E.
      rewrite lastIndex_emit_child by reflexivity.
      rewrite production_chain. csimpl. rewrite <- app_assoc. reflexivity.
Qed.

Lemma lastIndex_emit_collision st row :
  lastIndex (tableCollisions (outLog (emit st (OutCollision row))))
  = Z.of_nat (List.length (tableCollisions (outLog st))).
Proof.
  unfold lastIndex. simpl. rewrite tableCollisions_app, length_app. simpl. lia.
Qed.

Lemma trackLoop_mc_start cfg tracks st (k : nat) :
  (List.length (matchedIndices cfg tracks) <= k)%nat ->
  foldl (trackLoopBody true cfg) (st, replicate k 0, 0%nat) tracks
  = (mkState (nTableEventCounter st) (randStream st)
       (outLog st
        ++ flat_map (trackRecords true (lastIndex (tableCollisions (outLog st))))
                    (selectedTracks true cfg tracks)),
     matchedIndices cfg tracks
       ++ replicate (k - List.length (matchedIndices cfg tracks)) 0,
     List.length (matchedIndices cfg tracks)).
Proof. intros Hk. exact (trackLoop_mc cfg tracks st [] k Hk). Qed.

(** The rows of an admitted call. *)
Lemma writeTables_spec (IS_MC : bool) cfg st collision tracks particles :
  writeTables IS_MC cfg st collision tracks particles
  = mkState (nTableEventCounter st) (randStream st)
      (outLog st
       ++ callRecords IS_MC cfg (Z.of_nat (List.length (tableCollisions (outLog st))))
            collision tracks particles).
Proof.
  unfold writeTables, callRecords, childRecords. rewrite countSelectedTracks_length.
  fold (collisionRow cfg collision).
  destruct IS_MC.
  - rewrite trackLoop_mc_start by apply matched_le_selected.
    rewrite lastIndex_emit_collision. cbn [app].
    fold (finalRecoPartIndices cfg tracks).
    unfold nonRecoRecords, nonRecoParticles.
    destruct (mcCollision collision) as [mcId|].
    + rewrite particleLoop_spec. unfold emit.
      cbn [nTableEventCounter randStream outLog].
      rewrite tableCollisions_app.
      assert (Hchild : tableCollisions
                (flat_map (trackRecords true
                             (Z.of_nat (List.length (tableCollisions (outLog st)))))
                          (selectedTracks true cfg tracks)) = []).
      { induction (selectedTracks true cfg tracks) as [|t sel IHsel]; [reflexivity|].
        cbn [flat_map]. rewrite tableCollisions_app, IHsel. reflexivity. }
      rewrite Hchild, app_nil_r.
      change (lastIndex (tableCollisions (outLog st ++ [OutCollision (collisionRow cfg collision)])))
        with (lastIndex (tableCollisions
                (outLog (emit st (OutCollision (collisionRow cfg collision)))))).
      rewrite lastIndex_emit_collision.
      f_equal. rewrite <- !app_assoc. reflexivity.
    + unfold emit. cbn [nTableEventCounter randStream outLog].
      f_equal. rewrite <- !app_assoc, app_nil_r. reflexivity.
  - rewrite trackLoop_data. rewrite lastIndex_emit_collision.
    unfold emit. cbn [nTableEventCounter randStream outLog].
    f_equal. rewrite <- !app_assoc, app_nil_r. reflexivity.
Qed.

Lemma notSampled_keeps cfg st :
  nTableEventCounter (notSampled cfg st).2 = nTableEventCounter st
  /\ outLog (notSampled cfg st).2 = outLog st.
Proof.
  unfold notSampled. destruct (flt _ _); split; reflexivity.
Qed.

(** The two outcomes of a call: the collision is rejected and the rows
    and the running count stay, or it is admitted, the running count is
    incremented and the rows of the call are appended. *)
Lemma fillDerivedTable_cases (IS_MC : bool) cfg st collision tracks particles :
  let st' := fillDerivedTable IS_MC cfg st collision tracks particles in
  (outLog st' = outLog st /\ nTableEventCounter st' = nTableEventCounter st)
  \/ (outLog st'
      = outLog st
        ++ callRecords IS_MC cfg (Z.of_nat (List.length (tableCollisions (outLog st))))
             collision tracks particles
      /\ nTableEventCounter st' = wrapInt (nTableEventCounter st + 1)
      /\ nTableEventCounter st <= targetNumberOfEvents cfg).
Proof.
  unfold fillDerivedTable.
  destruct (isSelectedCollision cfg collision); cbn [negb]; [|now left].
  destruct (fgt _ _); [now left|].
  destruct (notSampled_keeps cfg st) as [Hc Hl].
  destruct (notSampled cfg st) as [skip st1]. cbn [snd] in Hc, Hl.
  destruct skip; [now left|].
  destruct (Z.gtb_spec (nTableEventCounter st1) (targetNumberOfEvents cfg)); [now left|].
  right. rewrite writeTables_spec. cbn [nTableEventCounter randStream outLog].
  rewrite Hl, Hc. repeat split; try reflexivity; lia.
Qed.

(** ** Referential ordering of the output stream *)

Lemma childRecords_childOf (IS_MC : bool) cfg (cid : Z) collision tracks particles :
  Forall (childOf cid) (childRecords IS_MC cfg cid collision tracks particles).
Proof.
  unfold childRecords. apply Forall_app_2.
  - induction (selectedTracks IS_MC cfg tracks) as [|track sel IH]; [constructor|].
    cbn [flat_map]. apply Forall_app_2; [|exact IH].
    unfold trackRecords. constructor.
    + split; [reflexivity|]. simpl. now intros k [= <-].
    + destruct IS_MC; repeat constructor. discriminate.
  - destruct IS_MC; [|constructor].
    unfold nonRecoRecords. apply Forall_fmap, Forall_forall. intros particle _.
    split; [reflexivity|]. simpl. now intros k [= <-].
Qed.

Lemma wellReferenced_nil : wellReferenced (@nil (OutRecord float)).
Proof. intros i r k Hi. discriminate. Qed.

Lemma wellReferenced_extend log row (children : list (OutRecord float)) :
  wellReferenced log ->
  Forall (childOf (Z.of_nat (List.length (tableCollisions log)))) children ->
  wellReferenced (log ++ OutCollision row :: children).
Proof.
  intros Hwf Hch i r k Hi Hb.
  destruct (decide (i < List.length log)%nat) as [Hlt|Hge].
  - rewrite lookup_app_l in Hi by exact Hlt.
    destruct (Hwf i r k Hi Hb) as (j & Hj & [[c Hc] Hk] & Hbetween).
    exists j. split; [exact Hj|]. split.
    + split.
      * exists c. now rewrite lookup_app_l by lia.
      * now rewrite take_app_le by lia.
    + intros m r' Hm Hr'. rewrite lookup_app_l in Hr' by lia. eauto.
  - rewrite lookup_app_r in Hi by lia.
    destruct (i - List.length log)%nat as [|n] eqn:En.
    { simpl in Hi. injection Hi as <-. discriminate. }
    simpl in Hi.
    pose proof (proj1 (Forall_lookup _ _) Hch n r Hi) as [_ Hk].
    specialize (Hk k Hb). subst k.
    exists (List.length log). split; [lia|]. split.
    + split.
      * exists row. now rewrite lookup_app_r, Nat.sub_diag by lia.
      * now rewrite take_app_length.
    + intros m r' Hm Hr'. rewrite lookup_app_r in Hr' by lia.
      destruct (m - List.length log)%nat as [|n'] eqn:En'; [lia|].
      simpl in Hr'.
      now pose proof (proj1 (Forall_lookup _ _) Hch n' r' Hr') as [Hc _].
Qed.

Lemma fillDerivedTable_wellReferenced (IS_MC : bool) cfg st collision tracks particles :
  wellReferenced (outLog st) ->
  wellReferenced (outLog (fillDerivedTable IS_MC cfg st collision tracks particles)).
Proof.
  intros Hwf.
  destruct (fillDerivedTable_cases IS_MC cfg st collision tracks particles)
    as [[-> _]|[-> _]]; [exact Hwf|].
  apply wellReferenced_extend; [exact Hwf|apply childRecords_childOf].
Qed.

Lemma run_wellReferenced (IS_MC : bool) cfg (inputs : list Input) : forall st,
  wellReferenced (outLog st) ->
  wellReferenced (outLog (run IS_MC cfg st inputs)).
Proof.
  induction inputs as [|[[collision tracks] particles] inputs IH]; intros st Hwf.
  - exact Hwf.
  - unfold run. cbn [foldl]. apply IH. now apply fillDerivedTable_wellReferenced.
Qed.

(** A Collision write is the row at its output position in
    [tableCollisions]. *)
Lemma collisionWrittenAt_lookup log (j : nat) (k : Z) c :
  log !! j = Some (OutCollision c) ->
  k = Z.of_nat (List.length (tableCollisions (take j log))) ->
  tableCollisions log !! Z.to_nat k = Some c.
Proof.
  intros Hj ->. rewrite Nat2Z.id.
  transitivity (tableCollisions (take j log ++ OutCollision c :: drop (S j) log)
                !! List.length (tableCollisions (take j log))).
  { now rewrite take_drop_middle. }
  rewrite tableCollisions_app. cbn.
  apply list_lookup_middle. reflexivity.
Qed.

Lemma collisions_before_lt log (j1 j2 : nat) c :
  (j1 < j2)%nat -> log !! j1 = Some (OutCollision c) ->
  (List.length (tableCollisions (take j1 log))
   < List.length (tableCollisions (take j2 log)))%nat.
Proof.
  intros Hlt Hj.
  assert (Hj' : take j2 log !! j1 = Some (OutCollision c))
    by now rewrite lookup_take_lt.
  rewrite <- (take_drop_middle (take j2 log) j1 _ Hj').
  rewrite take_take, Nat.min_l by lia.
  rewrite tableCollisions_app, length_app. cbn. lia.
Qed.

(** No two Collision writes have the same output position. *)
Lemma collisionWrittenAt_inj log (j1 j2 : nat) (k : Z) :
  collisionWrittenAt log j1 k -> collisionWrittenAt log j2 k -> j1 = j2.
Proof.
  intros [[c1 H1] E1] [[c2 H2] E2].
  destruct (Nat.lt_trichotomy j1 j2) as [Hlt|[Heq|Hgt]]; [|exact Heq|].
  - pose proof (collisions_before_lt log j1 j2 c1 Hlt H1). lia.
  - pose proof (collisions_before_lt log j2 j1 c2 Hgt H2). lia.
Qed.

(** C7.  In the stream of a run that starts with empty tables, every
    Track row and every non-reconstructed-particle row holds the output
    position of a Collision row that was written before it; that
    Collision write is the only one with this output position, and it is
    the latest Collision write before the child row, i.e. the one of the
    same call. *)
Theorem child_rows_reference_their_collision
    (IS_MC : bool) cfg (count : Z) (rs : nat -> Z) (inputs : list Input)
    (i : nat) (r : OutRecord float) (k : Z) :
  let log := outLog (run IS_MC cfg (mkState count rs []) inputs) in
  log !! i = Some r ->
  backReference r = Some k ->
  exists (j : nat) (c : DPGCollision float),
    (j < i)%nat
    /\ log !! j = Some (OutCollision c)
    /\ 0 <= k
    /\ tableCollisions log !! Z.to_nat k = Some c
    /\ tableCollisions (take j log) !! Z.to_nat k = None
    /\ (forall j' : nat, collisionWrittenAt log j' k -> j' = j)
    /\ (forall (m : nat) r', (j < m < i)%nat -> log !! m = Some r' ->
                             isCollisionRecord r' = false).
Proof.
  intros log Hi Hb.
  assert (Hwf : wellReferenced log)
    by (apply run_wellReferenced, wellReferenced_nil).
  destruct (Hwf i r k Hi Hb) as (j & Hj & Hat & Hbetween).
  pose proof Hat as [[c Hc] Hk].
  exists j, c. repeat split; try assumption.
  - lia.
  - eapply collisionWrittenAt_lookup; eassumption.
  - apply lookup_ge_None_2. rewrite Hk, Nat2Z.id. lia.
  - intros j' Hj'. eapply collisionWrittenAt_inj; eassumption.
Qed.

(** ** The cap on the number of events *)

Lemma tableCollisions_children (cid : Z) (children : list (OutRecord float)) :
  Forall (childOf cid) children -> tableCollisions children = [].
Proof.
  induction 1 as [|r children [Hr _] _ IH]; [reflexivity|].
  change (r :: children) with ([r] ++ children).
  rewrite tableCollisions_app, IH. now destruct r.
Qed.

Lemma tableCollisions_callRecords (IS_MC : bool) cfg (cid : Z) collision tracks particles :
  tableCollisions (callRecords IS_MC cfg cid collision tracks particles)
  = [collisionRow cfg collision].
Proof.
  unfold callRecords.
  change (OutCollision ?c :: ?l) with ([OutCollision c] ++ l).
  rewrite tableCollisions_app.
  now rewrite (tableCollisions_children cid
                 (childRecords IS_MC cfg cid collision tracks particles))
    by apply childRecords_childOf.
Qed.

(** A call on a collision that passes the cuts and is not skipped by the
    sampling. *)
Lemma fillDerivedTable_passing (IS_MC : bool) cfg st collision tracks particles :
  passesEventCuts cfg collision ->
  (notSampled cfg st).1 = false ->
  fillDerivedTable IS_MC cfg st collision tracks particles
  = let st1 := (notSampled cfg st).2 in
    if nTableEventCounter st >? targetNumberOfEvents cfg then st1
    else mkState (wrapInt (nTableEventCounter st + 1)) (randStream st1)
           (outLog st
            ++ callRecords IS_MC cfg (Z.of_nat (List.length (tableCollisions (outLog st))))
                 collision tracks particles).
Proof.
  intros [Hsel Hz] Hs. unfold fillDerivedTable. rewrite Hsel, Hz. cbn [negb].
  destruct (notSampled_keeps cfg st) as [Hc Hl].
  destruct (notSampled cfg st) as [skip st1]. cbn [fst snd] in *. subst skip.
  rewrite Hc. destruct (_ >? _); [reflexivity|].
  rewrite writeTables_spec. cbn [nTableEventCounter randStream outLog].
  now rewrite Hl.
Qed.

Lemma run_cons (IS_MC : bool) cfg st collision tracks particles (inputs : list Input) :
  run IS_MC cfg st ((collision, tracks, particles) :: inputs)
  = run IS_MC cfg (fillDerivedTable IS_MC cfg st collision tracks particles) inputs.
Proof. reflexivity. Qed.

(** With the sampling test switched off no call is skipped by it. *)
Lemma sampling_off_noneSampledOut (IS_MC : bool) cfg (inputs : list Input) : forall st,
  flt (fractionOfSampledEvents cfg) float_one = false ->
  noneSampledOut IS_MC cfg st inputs.
Proof.
  induction inputs as [|[[collision tracks] particles] inputs IH]; intros st Hf.
  - exact I.
  - split; [intros _; now rewrite notSampled_off|now apply IH].
Qed.

(** A call that leaves the stream as it was has admitted nothing. *)
Lemma same_log_not_admitted st st' : outLog st' = outLog st -> ~ admitted st st'.
Proof.
  intros E [row Hrow]. rewrite E in Hrow.
  apply (f_equal (@List.length _)) in Hrow. rewrite length_app in Hrow.
  simpl in Hrow. lia.
Qed.

(** How many collisions a run admits when every collision passes the cuts
    and none is skipped by the sampling: as many as there is room for up
    to [targetNumberOfEvents + 1]. *)
Lemma run_admits_up_to_cap (IS_MC : bool) cfg (inputs : list Input) : forall st,
  targetNumberOfEvents cfg < INT_MAX ->
  INT_MIN <= nTableEventCounter st ->
  Forall (fun input : Input => passesEventCuts cfg input.1.1) inputs ->
  noneSampledOut IS_MC cfg st inputs ->
  let room := Z.to_nat (targetNumberOfEvents cfg + 1 - nTableEventCounter st) in
  let st' := run IS_MC cfg st inputs in
  List.length (tableCollisions (outLog st'))
  = (List.length (tableCollisions (outLog st)) + Nat.min (List.length inputs) room)%nat
  /\ nTableEventCounter st'
     = nTableEventCounter st + Z.of_nat (Nat.min (List.length inputs) room).
Proof.
  induction inputs as [|[[collision tracks] particles] inputs IH];
    intros st Ht Hlo Hall Hnone room st'.
  - subst st'. simpl. split; lia.
  - subst st'. rewrite run_cons.
    inversion Hall as [|? ? Hpass Hrest]; subst. cbn [fst] in Hpass.
    destruct Hnone as [Hs Hnone]. specialize (Hs Hpass).
    pose proof (fillDerivedTable_passing IS_MC cfg st collision tracks particles Hpass Hs)
      as E.
    cbv zeta in E.
    destruct (notSampled_keeps cfg st) as [Hc Hl].
    set (st1 := fillDerivedTable IS_MC cfg st collision tracks particles) in *.
    destruct (Z.gtb_spec (nTableEventCounter st) (targetNumberOfEvents cfg)) as [Hgt|Hle].
    + assert (Ec : nTableEventCounter st1 = nTableEventCounter st) by (now rewrite E).
      assert (El : outLog st1 = outLog st) by (now rewrite E).
      destruct (IH st1 Ht ltac:(lia) Hrest Hnone) as [E1 E2].
      rewrite E1, E2, Ec, El. subst room. rewrite Z2Nat.nonpos by lia.
      rewrite !Nat.min_0_r. split; lia.
    + assert (Ec : nTableEventCounter st1 = nTableEventCounter st + 1).
      { rewrite E. cbn [nTableEventCounter]. apply wrapInt_in_range. lia. }
      assert (El : outLog st1
                   = outLog st
                     ++ callRecords IS_MC cfg
                          (Z.of_nat (List.length (tableCollisions (outLog st))))
                          collision tracks particles) by (now rewrite E).
      destruct (IH st1 Ht ltac:(lia) Hrest Hnone) as [E1 E2].
      rewrite E1, E2, Ec, El.
      rewrite tableCollisions_app, tableCollisions_callRecords, length_app.
      subst room.
      replace (Z.to_nat (targetNumberOfEvents cfg + 1 - nTableEventCounter st))
        with (S (Z.to_nat (targetNumberOfEvents cfg + 1 - (nTableEventCounter st + 1))))
        by lia.
      simpl. split; lia.
Qed.

(** C2.  The cap check compares the running count with
    [targetNumberOfEvents] by strict greater-than.  A collision that gets to
    the check, having passed the two cuts and the sampling test, whether
    that test is switched off or its draw passed, is admitted exactly when
    the running count it meets is at most the target; an admitted one
    raises the count by one, as long as the count is below [INT_MAX], and a
    rejected one leaves the rows and the count as they were.  So a run from
    count 0 with a target from 0 to below [INT_MAX], in which every
    collision passes the cuts and none is skipped by the sampling, admits
    [targetNumberOfEvents + 1] collisions, one more than the target, if
    that many arrive.  With target 5, the collision that meets the count 5
    is admitted and raises it to 6, and the one that meets the count 6 is
    rejected. *)
Theorem cap_check_admits_one_beyond_target (IS_MC : bool) cfg :
  (forall st collision tracks particles,
      passesEventCuts cfg collision ->
      (notSampled cfg st).1 = false ->
      let st' := fillDerivedTable IS_MC cfg st collision tracks particles in
      (admitted st st' <-> nTableEventCounter st <= targetNumberOfEvents cfg)
      /\ (nTableEventCounter st <= targetNumberOfEvents cfg ->
          INT_MIN <= nTableEventCounter st < INT_MAX ->
          nTableEventCounter st' = nTableEventCounter st + 1)
      /\ (nTableEventCounter st > targetNumberOfEvents cfg ->
          outLog st' = outLog st /\ nTableEventCounter st' = nTableEventCounter st))
  /\ (forall (rs : nat -> Z) (inputs : list Input),
        0 <= targetNumberOfEvents cfg < INT_MAX ->
        Forall (fun input : Input => passesEventCuts cfg input.1.1) inputs ->
        noneSampledOut IS_MC cfg (mkState 0 rs []) inputs ->
        let st' := run IS_MC cfg (mkState 0 rs []) inputs in
        List.length (tableCollisions (outLog st'))
        = Nat.min (List.length inputs) (Z.to_nat (targetNumberOfEvents cfg + 1))
        /\ nTableEventCounter st' = Z.of_nat (List.length (tableCollisions (outLog st'))))
  /\ (targetNumberOfEvents cfg = 5 ->
      forall st collision tracks particles,
        passesEventCuts cfg collision ->
        (notSampled cfg st).1 = false ->
        let st' := fillDerivedTable IS_MC cfg st collision tracks particles in
        (nTableEventCounter st = 5 -> admitted st st' /\ nTableEventCounter st' = 6)
        /\ (nTableEventCounter st = 6 ->
            ~ admitted st st'
            /\ outLog st' = outLog st /\ nTableEventCounter st' = 6)).
Proof.
  assert (Hcall : forall st collision tracks particles,
      passesEventCuts cfg collision ->
      (notSampled cfg st).1 = false ->
      let st' := fillDerivedTable IS_MC cfg st collision tracks particles in
      (admitted st st' <-> nTableEventCounter st <= targetNumberOfEvents cfg)
      /\ (nTableEventCounter st <= targetNumberOfEvents cfg ->
          INT_MIN <= nTableEventCounter st < INT_MAX ->
          nTableEventCounter st' = nTableEventCounter st + 1)
      /\ (nTableEventCounter st > targetNumberOfEvents cfg ->
          outLog st' = outLog st /\ nTableEventCounter st' = nTableEventCounter st)).
  { intros st collision tracks particles Hpass Hs st'. subst st'.
    rewrite fillDerivedTable_passing by assumption. cbv zeta.
    destruct (notSampled_keeps cfg st) as [Hc Hl].
    destruct (Z.gtb_spec (nTableEventCounter st) (targetNumberOfEvents cfg)) as [Hgt|Hle].
    - split; [|split].
      + split; [|lia]. intros Hadm. now apply same_log_not_admitted in Hadm.
      + lia.
      + intros _. now split.
    - split; [|split].
      + split; [intros _; exact Hle|]. intros _.
        exists (collisionRow cfg collision). cbn [outLog].
        now rewrite tableCollisions_app, tableCollisions_callRecords.
      + intros _ Hrange. cbn [nTableEventCounter]. apply wrapInt_in_range. lia.
      + lia. }
  split; [exact Hcall|]. split.
  - intros rs inputs Ht Hall Hnone st'.
    destruct (run_admits_up_to_cap IS_MC cfg inputs (mkState 0 rs []))
      as [E1 E2]; [lia|now cbn|exact Hall|exact Hnone|].
    fold st' in E1, E2. cbn [nTableEventCounter outLog] in E1, E2.
    rewrite Z.sub_0_r in E1, E2. simpl in E1. split; [exact E1|]. rewrite E2, E1. lia.
  - intros Ht st collision tracks particles Hpass Hs st'.
    destruct (Hcall st collision tracks particles Hpass Hs) as (Hiff & Hinc & Hrej).
    fold st' in Hiff, Hinc, Hrej. split.
    + intros E. split; [apply Hiff; lia|].
      rewrite Hinc; [lia|lia|]. rewrite E. now cbn.
    + intros E. split; [intros Hadm; apply Hiff in Hadm; lia|].
      destruct Hrej as [Hl Hc]; [lia|]. split; [exact Hl|]. lia.
Qed.

(** Over a run, the Collision rows written and the growth of the running
    count go together, and the count does not pass
    [targetNumberOfEvents + 1], when the target is below [INT_MAX] and the
    count starts in the range of [int] at or below
    [targetNumberOfEvents + 1]. *)
Lemma run_count_invariant (IS_MC : bool) cfg (inputs : list Input) : forall st,
  targetNumberOfEvents cfg < INT_MAX ->
  INT_MIN <= nTableEventCounter st <= targetNumberOfEvents cfg + 1 ->
  exists written : nat,
    List.length (tableCollisions (outLog (run IS_MC cfg st inputs)))
    = (List.length (tableCollisions (outLog st)) + written)%nat
    /\ nTableEventCounter (run IS_MC cfg st inputs)
       = nTableEventCounter st + Z.of_nat written
    /\ nTableEventCounter (run IS_MC cfg st inputs) <= targetNumberOfEvents cfg + 1.
Proof.
  induction inputs as [|[[collision tracks] particles] inputs IH]; intros st Ht Hst.
  - exists 0%nat. simpl. repeat split; lia.
  - rewrite run_cons.
    destruct (fillDerivedTable_cases IS_MC cfg st collision tracks particles)
      as [[El Ec]|(El & Ec & Hle)].
    + destruct (IH (fillDerivedTable IS_MC cfg st collision tracks particles) Ht)
        as (written & E1 & E2 & E3); [lia|].
      exists written. rewrite E1, E2, El, Ec in *. repeat split; lia.
    + rewrite wrapInt_in_range in Ec by lia.
      destruct (IH (fillDerivedTable IS_MC cfg st collision tracks particles) Ht)
        as (written & E1 & E2 & E3); [lia|].
      exists (S written). rewrite E1, E2, El, Ec in *.
      rewrite tableCollisions_app, tableCollisions_callRecords, length_app.
      simpl. repeat split; lia.
Qed.

(** With a target below [INT_MAX], a running count that starts in the range
    of [int] at or below [targetNumberOfEvents + 1] never decreases and
    never passes [targetNumberOfEvents + 1] over a run, so the increment
    does not overflow. *)
Lemma counter_stays_below_cap (IS_MC : bool) cfg (inputs : list Input) : forall st,
  targetNumberOfEvents cfg < INT_MAX ->
  INT_MIN <= nTableEventCounter st <= targetNumberOfEvents cfg + 1 ->
  nTableEventCounter st <= nTableEventCounter (run IS_MC cfg st inputs)
                        <= targetNumberOfEvents cfg + 1.
Proof.
  intros st Ht Hst.
  destruct (run_count_invariant IS_MC cfg inputs st Ht Hst) as (written & _ & E & Hle).
  lia.
Qed.

(** One call: either nothing is written, or one Collision row is written
    first and every row after it that holds a back-reference holds the
    output position of that Collision row. *)
Lemma call_rows_reference_own_collision (IS_MC : bool) cfg st collision tracks particles :
  let st' := fillDerivedTable IS_MC cfg st collision tracks particles in
  let cid := Z.of_nat (List.length (tableCollisions (outLog st))) in
  outLog st' = outLog st
  \/ exists children,
       outLog st' = outLog st ++ OutCollision (collisionRow cfg collision) :: children
       /\ tableCollisions (outLog st') !! Z.to_nat cid = Some (collisionRow cfg collision)
       /\ Forall (childOf cid) children.
Proof.
  intros st' cid.
  destruct (fillDerivedTable_cases IS_MC cfg st collision tracks particles)
    as [[E _]|[E _]]; [now left|right].
  fold st' in E. fold cid in E.
  exists (childRecords IS_MC cfg cid collision tracks particles).
  split; [exact E|]. split; [|apply childRecords_childOf].
  rewrite E, tableCollisions_app, tableCollisions_callRecords.
  unfold cid. rewrite Nat2Z.id. now apply list_lookup_middle.
Qed.

(** ** The four tables of an admitted call *)

Lemma tables_of_trackRecords (IS_MC : bool) (cid : Z) (sel : list (Track float)) :
  tableTracks (flat_map (trackRecords IS_MC cid) sel) = trackRow cid <$> sel
  /\ tableRecoParticles (flat_map (trackRecords IS_MC cid) sel)
     = (if IS_MC then recoRow <$> sel else [])
  /\ tableNonRecoParticles (flat_map (trackRecords IS_MC cid) sel) = [].
Proof.
  induction sel as [|track sel (IH1 & IH2 & IH3)].
  - now destruct IS_MC.
  - cbn [flat_map].
    rewrite tableTracks_app, tableRecoParticles_app, tableNonRecoParticles_app.
    rewrite IH1, IH2, IH3. now destruct IS_MC.
Qed.

Lemma tables_of_nonRecoRecords cfg (cid : Z) collision tracks particles :
  tableTracks (nonRecoRecords cfg cid collision tracks particles) = []
  /\ tableRecoParticles (nonRecoRecords cfg cid collision tracks particles) = []
  /\ tableNonRecoParticles (nonRecoRecords cfg cid collision tracks particles)
     = nonRecoRow cid <$> nonRecoParticles cfg collision tracks particles.
Proof.
  unfold nonRecoRecords.
  induction (nonRecoParticles cfg collision tracks particles)
    as [|particle rest (IH1 & IH2 & IH3)]; [now repeat split|].
  unfold tableTracks, tableRecoParticles, tableNonRecoParticles in *. csimpl.
  rewrite IH1, IH2, IH3. now repeat split.
Qed.

(** The rows a Monte Carlo call appends to each table. *)
Lemma tables_of_callRecords_mc cfg (cid : Z) collision tracks particles :
  let rows := callRecords true cfg cid collision tracks particles in
  tableCollisions rows = [collisionRow cfg collision]
  /\ tableTracks rows = trackRow cid <$> selectedTracks true cfg tracks
  /\ tableRecoParticles rows = recoRow <$> selectedTracks true cfg tracks
  /\ tableNonRecoParticles rows
     = nonRecoRow cid <$> nonRecoParticles cfg collision tracks particles.
Proof.
  intros rows. split; [apply tableCollisions_callRecords|].
  subst rows. unfold callRecords, childRecords.
  change (OutCollision ?c :: ?l) with ([OutCollision c] ++ l).
  rewrite !tableTracks_app, !tableRecoParticles_app, !tableNonRecoParticles_app.
  destruct (tables_of_trackRecords true cid (selectedTracks true cfg tracks))
    as (-> & -> & ->).
  destruct (tables_of_nonRecoRecords cfg cid collision tracks particles)
    as (-> & -> & ->).
  cbn [tableTracks tableRecoParticles tableNonRecoParticles omap list_omap app].
  now rewrite !app_nil_r.
Qed.

(** ** Production classification *)

(** C5.  [classify] gives every truth particle one of the three classes,
    by precedence: primary when the physical-primary flag is set, whatever
    the process code; else from decay when the process code is 4; else
    other.  The value written in the production column is the code of that
    class, [0], [1] or [2], both in the reconstructed-particle row of every
    admitted track with a label and in every non-reconstructed-particle
    row of the call. *)
Theorem production_classification cfg st collision tracks particles :
  (forall particle,
      (isPhysicalPrimary particle = true -> classify particle = Primary)
      /\ (isPhysicalPrimary particle = false -> getProcess particle = 4 ->
          classify particle = SecondaryFromDecay)
      /\ (isPhysicalPrimary particle = false -> getProcess particle <> 4 ->
          classify particle = SecondaryOther)
      /\ 0 <= productionCode (classify particle) <= 2)
  /\ (let st' := writeTables true cfg st collision tracks particles in
      let cid := Z.of_nat (List.length (tableCollisions (outLog st))) in
      tableRecoParticles (outLog st')
      = tableRecoParticles (outLog st) ++ (recoRow <$> selectedTracks true cfg tracks)
      /\ tableNonRecoParticles (outLog st')
         = tableNonRecoParticles (outLog st)
           ++ (nonRecoRow cid <$> nonRecoParticles cfg collision tracks particles))
  /\ (forall track particle,
        mcParticle track = Some particle ->
        reco_productionMode (recoRow track) = productionCode (classify particle))
  /\ (forall (cid : Z) particle,
        nreco_productionMode (nonRecoRow cid particle) = productionCode (classify particle)).
Proof.
  split; [|split; [|split]].
  - intros particle. unfold classify.
    destruct (isPhysicalPrimary particle); repeat split; try discriminate; simpl; try lia.
    + intros _ E. now rewrite bool_decide_eq_true_2.
    + intros _ E. now rewrite bool_decide_eq_false_2.
    + destruct (bool_decide _); simpl; lia.
    + destruct (bool_decide _); simpl; lia.
  - intros st' cid. subst st'. rewrite writeTables_spec. cbn [outLog].
    rewrite tableRecoParticles_app, tableNonRecoParticles_app.
    destruct (tables_of_callRecords_mc cfg cid collision tracks particles)
      as (_ & _ & E1 & E2).
    fold cid. now rewrite E1, E2.
  - intros track particle Hlabel. unfold recoRow. now rewrite Hlabel.
  - reflexivity.
Qed.

(** ** Matched and unmatched truth particles *)

(** The vector [recoPartIndices] holds what was collected, and [0] when
    some admitted track has no label. *)
Lemma elem_of_finalRecoPartIndices cfg tracks (g : Z) :
  g ∈ finalRecoPartIndices cfg tracks
  <-> g ∈ matchedIndices cfg tracks
      \/ (g = 0
          /\ (List.length (matchedIndices cfg tracks)
              < List.length (selectedTracks true cfg tracks))%nat).
Proof.
  unfold finalRecoPartIndices. rewrite elem_of_app, elem_of_replicate.
  pose proof (matched_le_selected cfg tracks). intuition lia.
Qed.

(** No truth particle that an admitted track is matched to gets a
    non-reconstructed row. *)
Lemma matched_particle_not_nonreco cfg collision tracks particles particle other :
  particle ∈ matchedParticles cfg tracks ->
  other ∈ nonRecoParticles cfg collision tracks particles ->
  globalIndex other <> globalIndex particle.
Proof.
  intros Hm Hn E. unfold nonRecoParticles in Hn.
  destruct (mcCollision collision) as [mcId|]; [|now apply not_elem_of_nil in Hn].
  apply list_elem_of_filter in Hn as [Hnot _]. apply Hnot.
  apply elem_of_finalRecoPartIndices. left. rewrite E.
  unfold matchedIndices. now apply list_elem_of_fmap_2.
Qed.

(** When every admitted track has a label, the non-reconstructed rows are
    those of the truth particles of the collision that were not collected. *)
Lemma nonRecoParticles_all_matched cfg collision tracks particles (mcId : Z) :
  mcCollision collision = Some mcId ->
  List.length (matchedIndices cfg tracks) = List.length (selectedTracks true cfg tracks) ->
  nonRecoParticles cfg collision tracks particles
  = filter (fun particle => globalIndex particle ∉ matchedIndices cfg tracks)
           (sliceBy particles mcId).
Proof.
  intros Hc Hlen. unfold nonRecoParticles, finalRecoPartIndices.
  rewrite Hc, Hlen, Nat.sub_diag. cbn [replicate]. now rewrite app_nil_r.
Qed.

(** A truth particle of the collision that was not collected and whose
    identifier is not [0] gets its row. *)
Lemma unmatched_nonzero_particle_nonreco cfg collision tracks particles (mcId : Z) particle :
  mcCollision collision = Some mcId ->
  particle ∈ sliceBy particles mcId ->
  globalIndex particle ∉ matchedIndices cfg tracks ->
  globalIndex particle <> 0 ->
  particle ∈ nonRecoParticles cfg collision tracks particles.
Proof.
  intros Hc Hin Hnot Hnz. unfold nonRecoParticles. rewrite Hc.
  apply list_elem_of_filter. split; [|exact Hin].
  rewrite elem_of_finalRecoPartIndices. intros [Hm|[Hz _]]; contradiction.
Qed.

(** ** Predicate evaluator *)

(** C4.  [isSelectedTrack] is the conjunction of its requirements.  In
    both modes a track fails when a nonzero [selectCharge] differs from its
    charge sign, and in data mode that is the only requirement.  In Monte
    Carlo mode the truth requirement is added: an unmatched track passes it
    exactly when none of [selectPrim], [selectSec], [selectPID] is active;
    a matched one fails it when [selectPrim] is set and the particle is not
    primary, when [selectSec] is set and it is primary, or when a nonzero
    [selectPID] differs from the absolute value of its PDG code.  The PDG
    code is an [int] above [INT_MIN], where [std::abs] is the absolute
    value.  So with [selectPID = 211] and nothing else requested, a track
    matched to a particle of PDG code [-211] is selected. *)
Theorem isSelectedTrack_mc_conjunction cfg track :
  (chargeAccepted cfg track = false
   <-> selectCharge cfg <> 0 /\ selectCharge cfg <> sign track)
  /\ (forall IS_MC : bool,
        chargeAccepted cfg track = false -> isSelectedTrack IS_MC cfg track = false)
  /\ isSelectedTrack false cfg track = chargeAccepted cfg track
  /\ ((forall particle,
         mcParticle track = Some particle -> INT_MIN < pdgCode particle <= INT_MAX) ->
      isSelectedTrack true cfg track = chargeAccepted cfg track && truthAccepted cfg track)
  /\ (mcParticle track = None ->
      truthAccepted cfg track = true
      <-> (selectPrim cfg = false /\ selectSec cfg = false /\ selectPID cfg = 0))
  /\ (forall particle,
        mcParticle track = Some particle ->
        selectCharge cfg = 0 -> selectPrim cfg = false -> selectSec cfg = false ->
        selectPID cfg = 211 -> pdgCode particle = -211 ->
        isSelectedTrack true cfg track = true).
Proof.
  split; [|split; [|split; [|split; [|split]]]].
  - unfold chargeAccepted.
    destruct (Z.eqb_spec (selectCharge cfg) 0), (Z.eqb_spec (selectCharge cfg) (sign track));
      cbn [negb andb]; intuition congruence.
  - intros IS_MC. unfold isSelectedTrack, chargeAccepted.
    destruct (negb (selectCharge cfg =? 0) && negb (selectCharge cfg =? sign track));
      [reflexivity|discriminate].
  - unfold isSelectedTrack, chargeAccepted.
    now destruct (negb (selectCharge cfg =? 0) && negb (selectCharge cfg =? sign track)).
  - intros Hrange. unfold isSelectedTrack, chargeAccepted, truthAccepted.
    destruct (negb (selectCharge cfg =? 0) && negb (selectCharge cfg =? sign track));
      simpl; [reflexivity|].
    destruct (mcParticle track) as [particle|].
    + rewrite (absInt_in_range (pdgCode particle)) by (now apply Hrange).
      destruct (selectPrim cfg), (selectSec cfg), (isPhysicalPrimary particle),
        (selectPID cfg =? 0), (selectPID cfg =? Z.abs (pdgCode particle)); reflexivity.
    + destruct (selectPrim cfg), (selectSec cfg), (selectPID cfg =? 0); reflexivity.
  - intros Hnone. unfold truthAccepted. rewrite Hnone.
    destruct (selectPrim cfg), (selectSec cfg); simpl;
      destruct (Z.eqb_spec (selectPID cfg) 0); intuition congruence.
  - intros particle Hsome Hc Hp Hs Hpid Hpdg.
    unfold isSelectedTrack. rewrite Hsome, Hc, Hp, Hs, Hpid, Hpdg. reflexivity.
Qed.

(** C10.  In data mode the outcome of [isSelectedTrack] is a function of
    [selectCharge] and of the charge sign of the track alone: two
    configurations with the same [selectCharge] and two tracks with the same
    sign get the same answer, whatever [selectPrim], [selectSec],
    [selectPID] and every other column are. *)
Theorem isSelectedTrack_data_charge_only cfg cfg' track track' :
  selectCharge cfg = selectCharge cfg' ->
  sign track = sign track' ->
  isSelectedTrack false cfg track = isSelectedTrack false cfg' track'.
Proof.
  intros Hc Hs. unfold isSelectedTrack. now rewrite Hc, Hs.
Qed.

(** ** Initialisation *)

(** C9.  [init] ends in the fatal record exactly when [processTableData]
    and [processTableMC] are both enabled; the record is the one of that
    check, and nothing is booked. *)
Theorem init_fatal_iff_both_table_modes (sw : ProcessSwitches) :
  (doprocessTableData sw = true /\ doprocessTableMC sw = true ->
   exists msg, init sw = InitFatal msg)
  /\ (~ (doprocessTableData sw = true /\ doprocessTableMC sw = true) ->
      exists info histos, init sw = InitDone info histos).
Proof.
  unfold init. split.
  - intros [-> ->]. simpl. eauto.
  - intros Hnot.
    destruct (doprocessTableData sw), (doprocessTableMC sw); simpl;
      try (exfalso; apply Hnot; split; reflexivity);
      destruct (negb (doprocessData sw) && negb (doprocessMC sw)); eauto.
Qed.

(** ** Further properties of the table path *)

Lemma tables_of_callRecords_data cfg (cid : Z) collision tracks particles :
  let rows := callRecords false cfg cid collision tracks particles in
  tableTracks rows = trackRow cid <$> selectedTracks false cfg tracks
  /\ tableRecoParticles rows = []
  /\ tableNonRecoParticles rows = [].
Proof.
  intros rows. subst rows. unfold callRecords, childRecords.
  change (OutCollision ?c :: ?l) with ([OutCollision c] ++ l).
  rewrite !tableTracks_app, !tableRecoParticles_app, !tableNonRecoParticles_app.
  destruct (tables_of_trackRecords false cid (selectedTracks false cfg tracks))
    as (-> & -> & ->).
  cbn [tableTracks tableRecoParticles tableNonRecoParticles omap list_omap app].
  now rewrite !app_nil_r.
Qed.

(** In data mode the writer never touches the two truth tables, and the
    particle argument has no influence on what it does. *)
Theorem data_mode_writes_no_truth_rows cfg st collision tracks particles :
  let st' := fillDerivedTable false cfg st collision tracks particles in
  tableRecoParticles (outLog st') = tableRecoParticles (outLog st)
  /\ tableNonRecoParticles (outLog st') = tableNonRecoParticles (outLog st)
  /\ st' = processTableData cfg st collision tracks.
Proof.
  intros st'. subst st'.
  assert (Hsame : fillDerivedTable false cfg st collision tracks particles
                  = processTableData cfg st collision tracks) by reflexivity.
  destruct (fillDerivedTable_cases false cfg st collision tracks particles)
    as [[E _]|[E _]]; rewrite E.
  - split; [reflexivity|]. split; [reflexivity|exact Hsame].
  - rewrite tableRecoParticles_app, tableNonRecoParticles_app.
    destruct (tables_of_callRecords_data cfg
                (Z.of_nat (List.length (tableCollisions (outLog st))))
                collision tracks particles) as (_ & -> & ->).
    rewrite !app_nil_r. split; [reflexivity|]. split; [reflexivity|exact Hsame].
Qed.

(** What one Monte Carlo call appends to the Track table and to the
    reconstructed-particle table comes from one and the same list of input
    tracks, [callTracks]. *)
Lemma mc_call_parallel_rows cfg st collision tracks particles :
  let st' := fillDerivedTable true cfg st collision tracks particles in
  let tagged := callTracks true cfg st (collision, tracks, particles) in
  tableTracks (outLog st')
  = tableTracks (outLog st) ++ ((fun p => trackRow p.1 p.2) <$> tagged)
  /\ tableRecoParticles (outLog st')
     = tableRecoParticles (outLog st) ++ ((fun p => recoRow p.2) <$> tagged).
Proof.
  intros st' tagged. subst st' tagged. unfold callTracks.
  destruct (fillDerivedTable_cases true cfg st collision tracks particles)
    as [[E _]|[E _]]; rewrite E.
  - rewrite Nat.ltb_irrefl. now rewrite !app_nil_r.
  - rewrite tableCollisions_app, tableCollisions_callRecords, length_app.
    replace (_ <? _)%nat with true by (symmetry; apply Nat.ltb_lt; simpl; lia).
    rewrite tableTracks_app, tableRecoParticles_app.
    destruct (tables_of_callRecords_mc cfg
                (Z.of_nat (List.length (tableCollisions (outLog st))))
                collision tracks particles) as (_ & -> & -> & _).
    rewrite <- !list_fmap_compose. now split.
Qed.

Lemma callTracks_selected (IS_MC : bool) cfg st collision tracks particles :
  Forall (fun p : Z * Track float => p.2 ∈ selectedTracks IS_MC cfg tracks)
         (callTracks IS_MC cfg st (collision, tracks, particles)).
Proof.
  unfold callTracks. destruct (_ <? _)%nat; [|constructor].
  apply Forall_fmap, Forall_forall. now intros track Hin.
Qed.

Lemma mc_run_parallel_rows cfg (inputs : list Input) : forall st,
  let st' := run true cfg st inputs in
  let tagged := admittedTracks true cfg st inputs in
  tableTracks (outLog st')
  = tableTracks (outLog st) ++ ((fun p => trackRow p.1 p.2) <$> tagged)
  /\ tableRecoParticles (outLog st')
     = tableRecoParticles (outLog st) ++ ((fun p => recoRow p.2) <$> tagged)
  /\ Forall (fun p : Z * Track float =>
               exists input : Input,
                 input ∈ inputs /\ p.2 ∈ selectedTracks true cfg input.1.2) tagged.
Proof.
  induction inputs as [|[[collision tracks] particles] inputs IH]; intros st st' tagged.
  - subst st' tagged. cbn [run foldl admittedTracks fmap list_fmap].
    rewrite !app_nil_r. repeat split. constructor.
  - subst st' tagged. rewrite run_cons. cbn [admittedTracks].
    destruct (IH (fillDerivedTable true cfg st collision tracks particles))
      as (E1 & E2 & E3).
    destruct (mc_call_parallel_rows cfg st collision tracks particles) as [F1 F2].
    rewrite E1, E2, F1, F2, !fmap_app, <- !app_assoc.
    split; [reflexivity|]. split; [reflexivity|].
    apply Forall_app_2.
    + eapply Forall_impl; [apply callTracks_selected|].
      intros p Hp. exists (collision, tracks, particles). split; [left|exact Hp].
    + eapply Forall_impl; [exact E3|].
      intros p (input & Hin & Hp). exists input. split; [now right|exact Hp].
Qed.

(** In Monte Carlo mode the Track table and the reconstructed-particle
    table stay parallel over a whole run.  What the run adds to the two
    tables is written from one list of input tracks, [admittedTracks]: the
    selected tracks of the calls that wrote a Collision row, in the order
    of the calls and of the tracks of each call.  The row at a position of
    the one table and the row at the same position of the other are
    written from the same input track, and the Track row refers to the
    Collision row of the call of that track.  Tables of the same size
    remain of the same size. *)
Theorem track_and_reco_tables_parallel cfg (inputs : list Input) st :
  let st' := run true cfg st inputs in
  let tagged := admittedTracks true cfg st inputs in
  tableTracks (outLog st')
  = tableTracks (outLog st) ++ ((fun p => trackRow p.1 p.2) <$> tagged)
  /\ tableRecoParticles (outLog st')
     = tableRecoParticles (outLog st) ++ ((fun p => recoRow p.2) <$> tagged)
  /\ Forall (fun p : Z * Track float =>
               exists input : Input,
                 input ∈ inputs /\ p.2 ∈ selectedTracks true cfg input.1.2) tagged
  /\ (forall (k : nat) (cid : Z) track,
        tagged !! k = Some (cid, track) ->
        tableTracks (outLog st') !! (List.length (tableTracks (outLog st)) + k)%nat
        = Some (trackRow cid track)
        /\ tableRecoParticles (outLog st')
             !! (List.length (tableRecoParticles (outLog st)) + k)%nat
           = Some (recoRow track))
  /\ (List.length (tableTracks (outLog st)) = List.length (tableRecoParticles (outLog st)) ->
      List.length (tableTracks (outLog st'))
      = List.length (tableRecoParticles (outLog st'))).
Proof.
  intros st' tagged.
  destruct (mc_run_parallel_rows cfg inputs st) as (E1 & E2 & E3).
  fold st' in E1, E2. fold tagged in E1, E2, E3.
  split; [exact E1|]. split; [exact E2|]. split; [exact E3|]. split.
  - intros k cid track Hk. rewrite E1, E2.
    rewrite !lookup_app_r by lia.
    replace (List.length (tableTracks (outLog st)) + k
             - List.length (tableTracks (outLog st)))%nat with k by lia.
    replace (List.length (tableRecoParticles (outLog st)) + k
             - List.length (tableRecoParticles (outLog st)))%nat with k by lia.
    rewrite !list_lookup_fmap, Hk. now split.
  - intros Hlen. rewrite E1, E2, !length_app, !length_fmap. lia.
Qed.


Lemma writeTables_randStream (IS_MC : bool) cfg st collision tracks particles :
  randStream (writeTables IS_MC cfg st collision tracks particles) = randStream st.
Proof. now rewrite writeTables_spec. Qed.

(** With a sampling fraction below [1.f], a call whose collision passes
    the two cuts draws exactly one value from the generator, whether the
    collision is then admitted or not; when the draw exceeds the fraction
    the rows and the running count stay as they were.  A call whose
    collision fails a cut draws nothing. *)
Theorem sampling_draws_once_after_cuts (IS_MC : bool) cfg st collision tracks particles :
  flt (fractionOfSampledEvents cfg) float_one = true ->
  let st' := fillDerivedTable IS_MC cfg st collision tracks particles in
  let draw := fdiv (float_of_int (randStream st 0%nat)) (float_of_int RAND_MAX) in
  (passesEventCuts cfg collision ->
   randStream st' = (fun n => randStream st (S n))
   /\ (fgt draw (fractionOfSampledEvents cfg) = true ->
       outLog st' = outLog st /\ nTableEventCounter st' = nTableEventCounter st))
  /\ (~ passesEventCuts cfg collision -> st' = st).
Proof.
  intros Hf st' draw. subst st' draw. unfold fillDerivedTable, passesEventCuts. split.
  - intros [-> ->]. cbn [negb]. unfold notSampled, rand. rewrite Hf.
    destruct (fgt _ _).
    + now repeat split.
    + cbn [nTableEventCounter]. split; [|discriminate].
      destruct (_ >? _); [reflexivity|]. now rewrite writeTables_randStream.
  - intros Hnot. destruct (isSelectedCollision cfg collision); [|reflexivity].
    cbn [negb]. destruct (fgt (fabs _) _); [reflexivity|]. now destruct Hnot.
Qed.

(** Over any run the running count grows by exactly the number of
    Collision rows written, when the target is below [INT_MAX] and the
    count starts in the range of [int] at or below
    [targetNumberOfEvents + 1]. *)
Theorem running_count_counts_collision_rows (IS_MC : bool) cfg (inputs : list Input) st :
  targetNumberOfEvents cfg < INT_MAX ->
  INT_MIN <= nTableEventCounter st <= targetNumberOfEvents cfg + 1 ->
  let st' := run IS_MC cfg st inputs in
  exists written : nat,
    List.length (tableCollisions (outLog st'))
    = (List.length (tableCollisions (outLog st)) + written)%nat
    /\ nTableEventCounter st' = nTableEventCounter st + Z.of_nat written.
Proof.
  intros Ht Hst st'.
  destruct (run_count_invariant IS_MC cfg inputs st Ht Hst) as (written & E1 & E2 & _).
  exists written. now split.
Qed.

(** The number of tracks the first loop counts, which sizes the Track
    table and the vector of identifiers, is the number of Track rows the
    second loop writes. *)
Theorem counted_tracks_are_written_tracks (IS_MC : bool) cfg st collision tracks particles :
  let st' := writeTables IS_MC cfg st collision tracks particles in
  List.length (tableTracks (outLog st'))
  = (List.length (tableTracks (outLog st)) + countSelectedTracks IS_MC cfg tracks)%nat.
Proof.
  intros st'. subst st'. rewrite writeTables_spec. cbn [outLog].
  rewrite tableTracks_app, length_app, countSelectedTracks_length. f_equal.
  destruct IS_MC.
  - destruct (tables_of_callRecords_mc cfg
                (Z.of_nat (List.length (tableCollisions (outLog st))))
                collision tracks particles) as (_ & -> & _).
    now rewrite length_fmap.
  - destruct (tables_of_callRecords_data cfg
                (Z.of_nat (List.length (tableCollisions (outLog st))))
                collision tracks particles) as (-> & _).
    now rewrite length_fmap.
Qed.

(** ** Further properties of the track selection *)

(** With [selectPrim] and [selectSec] both set, no track is selected in
    Monte Carlo mode. *)
Theorem primary_and_secondary_selects_nothing cfg track :
  selectPrim cfg = true -> selectSec cfg = true ->
  isSelectedTrack true cfg track = false.
Proof.
  intros Hp Hs. unfold isSelectedTrack. rewrite Hp, Hs.
  destruct (negb _ && negb _); [reflexivity|].
  destruct (mcParticle track) as [particle|]; [|reflexivity].
  now destruct (isPhysicalPrimary particle).
Qed.

(** A negative [selectPID] above [INT_MIN] selects no track in Monte Carlo
    mode: the PDG code, an [int], is compared through [std::abs], which is
    never negative except at [INT_MIN]. *)
Theorem negative_selectPID_selects_nothing cfg track :
  INT_MIN < selectPID cfg < 0 ->
  (forall particle,
      mcParticle track = Some particle -> INT_MIN <= pdgCode particle <= INT_MAX) ->
  isSelectedTrack true cfg track = false.
Proof.
  intros Hneg Hint. unfold isSelectedTrack.
  destruct (negb _ && negb _); [reflexivity|].
  assert (Hnz : (selectPID cfg =? 0) = false) by (apply Z.eqb_neq; lia).
  destruct (mcParticle track) as [particle|].
  - rewrite Hnz.
    assert (Hne : (selectPID cfg =? absInt (pdgCode particle)) = false).
    { apply Z.eqb_neq. destruct (absInt_sign (pdgCode particle)); [now apply Hint|lia|lia]. }
    rewrite Hne.
    now destruct (selectPrim cfg), (selectSec cfg), (isPhysicalPrimary particle).
  - rewrite Hnz. cbn [negb]. now rewrite !orb_true_r.
Qed.

(** A track selected in Monte Carlo mode is selected in data mode: the
    truth requirements only remove tracks. *)
Theorem mc_selection_implies_data_selection cfg track :
  isSelectedTrack true cfg track = true ->
  isSelectedTrack false cfg track = true.
Proof.
  unfold isSelectedTrack. now destruct (negb _ && negb _).
Qed.

(** ** Further properties of the initialisation *)

(** [init] never books a histogram name twice. *)
Theorem init_books_each_name_once (sw : ProcessSwitches) info histos :
  init sw = InitDone info histos -> NoDup histos.
Proof.
  destruct sw as [d iu iuf mc td tm]. unfold init. cbn [doprocessData doprocessDataIU
    doprocessDataIUFiltered doprocessMC doprocessTableData doprocessTableMC].
  destruct d, iu, iuf, mc, td, tm; cbn [andb negb];
    intros [= <- <-] || discriminate 1;
    compute_done.
Qed.

End Properties.

(** * Properties of the QA path *)

Section HistogramProperties.
Context {float : Type} `{FloatOps float} `{FloatLiterals float}.

Implicit Types (cfg : Config float) (histos entries : list (HistFill float)).
Implicit Types (track : QATrack float) (trk : Track float).

(** ** Fills only append *)

Lemma foldl_appends {A : Type} (f : list (HistFill float) -> A -> list (HistFill float))
    (l : list A) :
  (forall histos x, f histos x = histos ++ f [] x) ->
  forall histos, foldl f histos l = histos ++ flat_map (f []) l.
Proof.
  intros Hf. induction l as [|x l IH]; intros histos; cbn [foldl flat_map].
  - now rewrite app_nil_r.
  - rewrite IH, Hf. now rewrite <- app_assoc.
Qed.

Lemma foldl_appends_with {A : Type}
    (f : list (HistFill float) -> A -> list (HistFill float))
    (g : A -> list (HistFill float)) (l : list A) :
  (forall histos x, f histos x = histos ++ g x) ->
  forall histos, foldl f histos l = histos ++ flat_map g l.
Proof.
  intros Hf. induction l as [|x l IH]; intros histos; cbn [foldl flat_map].
  - now rewrite app_nil_r.
  - rewrite IH, Hf. now rewrite <- app_assoc.
Qed.

Lemma foldl_frame {A : Type} (f : list (HistFill float) -> A -> list (HistFill float))
    (l : list A) :
  (forall histos x, f histos x = histos ++ f [] x) ->
  forall histos, foldl f histos l = histos ++ foldl f [] l.
Proof.
  intros Hf histos.
  now rewrite (foldl_appends f l Hf histos), (foldl_appends f l Hf []).
Qed.

Lemma hasLayer_testbit (v : Z) (i : nat) :
  hasLayer v i = Z.testbit v (Z.of_nat i).
Proof.
  unfold hasLayer. rewrite Z.shiftl_1_l.
  destruct (Z.testbit v (Z.of_nat i)) eqn:E.
  - apply negb_true_iff, Z.eqb_neq. intros Hz.
    assert (Hb : Z.testbit (Z.land v (2 ^ Z.of_nat i)) (Z.of_nat i) = true).
    { rewrite Z.land_spec, E, Z.pow2_bits_true by lia. reflexivity. }
    rewrite Hz, Z.bits_0 in Hb. discriminate.
  - apply negb_false_iff, Z.eqb_eq. apply Z.bits_inj'. intros n Hn.
    rewrite Z.land_spec, Z.bits_0, Z.pow2_bits_eqb by lia.
    destruct (Z.eqb_spec (Z.of_nat i) n) as [<-|_].
    + now rewrite E.
    + apply andb_false_r.
Qed.

Lemma fillItsHits_frame (name : string) histos (m : Z) :
  fillItsHits name histos m = histos ++ fillItsHits name [] m.
Proof.
  cbv beta delta [fillItsHits fills]. cbn [seq foldl].
  generalize (hasLayer m 0), (hasLayer m 1), (hasLayer m 2), (hasLayer m 3),
    (hasLayer m 4), (hasLayer m 5), (hasLayer m 6).
  intros b0 b1 b2 b3 b4 b5 b6.
  destruct b0, b1, b2, b3, b4, b5, b6; cbn [fst snd negb app];
    rewrite <- ?app_assoc; try rewrite app_nil_r; reflexivity.
Qed.

Lemma fillItsHits_empty (name : string) (m : Z) :
  fillItsHits name [] m = itsHitEntries (float := float) name m.
Proof.
  cbv beta delta [fillItsHits itsHitEntries layersHit fills]. cbn [seq foldl].
  rewrite !filter_cons, filter_nil. rewrite <- !hasLayer_testbit.
  generalize (hasLayer m 0), (hasLayer m 1), (hasLayer m 2), (hasLayer m 3),
    (hasLayer m 4), (hasLayer m 5), (hasLayer m 6).
  intros b0 b1 b2 b3 b4 b5 b6.
  destruct b0, b1, b2, b3, b4, b5, b6; reflexivity.
Qed.


Lemma fillItsHits_entries (name : string) histos (m : Z) :
  fillItsHits name histos m = histos ++ itsHitEntries name m.
Proof. now rewrite fillItsHits_frame, fillItsHits_empty. Qed.

Lemma fillFlags_step_frame (beyond : nat -> Z) (flagWord : Z) histos (i : nat) :
  (if negb (Z.land flagWord (shiftLeftOne beyond i) =? 0)
   then fills histos [mkFill "Tracks/flags" [HInt (Z.of_nat i)]]
   else histos)
  = histos ++ (if negb (Z.land flagWord (shiftLeftOne beyond i) =? 0)
               then fills [] [mkFill "Tracks/flags" [HInt (Z.of_nat i)]]
               else []).
Proof. destruct (negb _); [reflexivity|now rewrite app_nil_r]. Qed.

Lemma fillFlags_frame (beyond : nat -> Z) histos (flagWord : Z) :
  fillFlags beyond histos flagWord = histos ++ fillFlags beyond [] flagWord.
Proof.
  unfold fillFlags. apply foldl_frame. apply fillFlags_step_frame.
Qed.

Lemma fillFlags_names (beyond : nat -> Z) (flagWord : Z) :
  Forall (fun f : HistFill float => fillName f = "Tracks/flags"%string)
         (fillFlags beyond [] flagWord).
Proof.
  unfold fillFlags. generalize (seq 0 64). intros l.
  enough (Hgen : forall histos,
    Forall (fun f : HistFill float => fillName f = "Tracks/flags"%string) histos ->
    Forall (fun f : HistFill float => fillName f = "Tracks/flags"%string)
      (foldl (fun histos i =>
                if negb (Z.land flagWord (shiftLeftOne beyond i) =? 0)
                then fills histos [mkFill "Tracks/flags" [HInt (Z.of_nat i)]]
                else histos) histos l))
    by (apply Hgen; constructor).
  induction l as [|i l IH]; intros histos Hh; cbn [foldl]; [exact Hh|].
  apply IH. destruct (negb _); [|exact Hh].
  apply Forall_app_2; [exact Hh|repeat constructor].
Qed.

Lemma itsHitEntries_names (name : string) (m : Z) :
  Forall (fun f : HistFill float => fillName f = name) (itsHitEntries name m).
Proof.
  unfold itsHitEntries. destruct (layersHit m) as [|i layers]; [repeat constructor|].
  apply Forall_fmap, Forall_forall. now intros.
Qed.

(** One iteration of the track loop appends [trackEntries]. *)
Lemma fillTrackHistograms_entries (IS_MC : bool) (beyond : nat -> Z) histos track :
  fillTrackHistograms IS_MC beyond histos track = histos ++ trackEntries IS_MC beyond track.
Proof.
  unfold fillTrackHistograms, trackEntries, trackTailEntries, matchingEntries, fills.
  cbv zeta.
  rewrite fillFlags_frame, fillItsHits_entries.
  destruct IS_MC; [destruct (mcParticle (qaTrack track))|];
    destruct (hasITS (qaTrack track)), (hasTPC (qaTrack track)); cbn [andb];
    rewrite <- ?app_assoc, ?app_nil_r; reflexivity.
Qed.

Lemma isSelectedCollisionFill_spec cfg histos (collision : Collision float) :
  isSelectedCollisionFill cfg histos collision
  = (isSelectedCollision cfg collision,
     histos ++ mkFill "Events/recoEff" [HInt 1]
            :: (if isSelectedCollision cfg collision
                then [mkFill "Events/recoEff" [HInt 2]] else [])).
Proof.
  unfold isSelectedCollisionFill, isSelectedCollision, fills.
  destruct (selectGoodEvents cfg && negb _); [reflexivity|].
  now rewrite <- app_assoc.
Qed.

Lemma countSelectedRows (IS_MC : bool) cfg (tracks : FilteredTracks float) :
  countSelectedTracks IS_MC cfg (qaTrack <$> filteredRows tracks)
  = List.length (selectedRows IS_MC cfg tracks).
Proof.
  rewrite countSelectedTracks_length. unfold selectedTracks, selectedRows.
  induction (filteredRows tracks) as [|track rows IH]; [reflexivity|].
  rewrite fmap_cons, !filter_cons. cbv beta.
  destruct (decide (isSelectedTrack IS_MC cfg (qaTrack track) = true));
    simpl; now rewrite IH.
Qed.

(** One call of [fillRecoHistograms] appends the fill of
    [Events/recoEff] at 1 and, for a selected collision, the fill at 2 and
    [selectedCollisionEntries]. *)
Lemma fillRecoHistograms_entries (IS_MC : bool) cfg (beyond : nat -> Z) histos
    (collision : QACollision float) (tracks : FilteredTracks float)
    (tracksUnfiltered : list (Track float)) :
  fillRecoHistograms IS_MC cfg beyond histos collision tracks tracksUnfiltered
  = histos
    ++ mkFill "Events/recoEff" [HInt 1]
    :: (if isSelectedCollision cfg (qaCollision collision)
        then mkFill "Events/recoEff" [HInt 2]
             :: selectedCollisionEntries IS_MC cfg beyond collision tracks tracksUnfiltered
        else []).
Proof.
  unfold fillRecoHistograms. rewrite isSelectedCollisionFill_spec.
  destruct (isSelectedCollision cfg (qaCollision collision)); cbn [negb]; [|reflexivity].
  rewrite countSelectedRows.
  etransitivity.
  { apply (foldl_appends_with
             (fun histos track =>
                if negb (isSelectedTrack IS_MC cfg (qaTrack track)) then histos
                else fillTrackHistograms IS_MC beyond histos track)
             (fun track =>
                if isSelectedTrack IS_MC cfg (qaTrack track)
                then trackEntries IS_MC beyond track else [])).
    intros h track. destruct (isSelectedTrack IS_MC cfg (qaTrack track)); cbn [negb].
    - apply fillTrackHistograms_entries.
    - symmetry. apply app_nil_r. }
  etransitivity.
  { apply (f_equal (fun prefix => prefix ++ _)).
    apply (foldl_appends_with
             (fun histos trackUnfiltered =>
                fillItsHits "Tracks/ITS/itsHitsUnfiltered" histos
                  (itsClusterMap trackUnfiltered))
             (fun trackUnfiltered : Track float =>
                itsHitEntries "Tracks/ITS/itsHitsUnfiltered"
                  (itsClusterMap trackUnfiltered))).
    intros h t. apply fillItsHits_entries. }
  cbv beta.
  assert (Hsel : flat_map
            (fun track =>
               if isSelectedTrack IS_MC cfg (qaTrack track)
               then trackEntries IS_MC beyond track else [])
            (filteredRows tracks)
          = flat_map (trackEntries IS_MC beyond) (selectedRows IS_MC cfg tracks)).
  { unfold selectedRows.
    induction (filteredRows tracks) as [|track rows IH]; [reflexivity|].
    cbn [flat_map]. rewrite filter_cons, IH.
    destruct (decide (isSelectedTrack IS_MC cfg (qaTrack track) = true)) as [E|E].
    - rewrite E. reflexivity.
    - apply not_true_is_false in E. rewrite E. reflexivity. }
  rewrite Hsel. unfold selectedCollisionEntries, fills.
  destruct IS_MC; [destruct (mcCollision (qaCollision collision))|];
    rewrite <- ?app_assoc; cbn [app]; reflexivity.
Qed.

(** ** The names of the fills *)

Lemma Forall_name_replicate (P : string -> Prop) (c : string) entries :
  Forall (fun f : HistFill float => fillName f = c) entries ->
  P c -> Forall (fun f : HistFill float => P (fillName f)) entries.
Proof.
  intros Hall Hc. eapply Forall_impl; [exact Hall|]. now intros f ->.
Qed.

Ltac block_names HP :=
  repeat first
    [ apply Forall_nil_2
    | apply Forall_cons_2; [cbn [fillName]; apply HP; compute_done|] ].

Lemma trackTailEntries_names (P : string -> Prop) (IS_MC : bool) (beyond : nat -> Z) track :
  (forall n, n ∈ trackTailHistos IS_MC -> P n) ->
  Forall (fun f : HistFill float => P (fillName f)) (trackTailEntries IS_MC beyond track).
Proof.
  intros HP. unfold trackTailEntries.
  apply Forall_app_2; [|apply Forall_app_2; [|apply Forall_app_2;
    [|apply Forall_app_2; [|apply Forall_app_2]]]].
  - apply (Forall_name_replicate P _ _ (fillFlags_names beyond _)).
    apply HP. destruct IS_MC; compute_done.
  - unfold dcaEntries. cbv zeta. destruct IS_MC; block_names HP.
  - apply (Forall_name_replicate P _ _ (itsHitEntries_names _ _)).
    apply HP. destruct IS_MC; compute_done.
  - unfold tpcEntries. cbv zeta. destruct IS_MC; block_names HP.
  - destruct IS_MC; [|constructor].
    destruct (mcParticle (qaTrack track)); [|constructor].
    unfold kineResoEntries. block_names HP.
  - unfold matchingEntries.
    destruct (hasITS (qaTrack track)), (hasTPC (qaTrack track)), IS_MC;
      cbn [andb app]; block_names HP.
Qed.

Lemma trackTailHistos_included (IS_MC : bool) (n : string) :
  n ∈ trackTailHistos IS_MC -> n ∈ selectedCollisionHistos IS_MC.
Proof. revert n. apply Forall_forall. destruct IS_MC; compute_done. Qed.

Lemma trackEntries_names (P : string -> Prop) (IS_MC : bool) (beyond : nat -> Z) track :
  (forall n, n ∈ selectedCollisionHistos IS_MC -> P n) ->
  Forall (fun f : HistFill float => P (fillName f)) (trackEntries IS_MC beyond track).
Proof.
  intros HP. unfold trackEntries. apply Forall_app_2.
  - unfold kineEntries. cbv zeta. destruct IS_MC; block_names HP.
  - apply trackTailEntries_names. intros n Hn. now apply HP, trackTailHistos_included.
Qed.

Lemma selectedCollisionEntries_names (P : string -> Prop) (IS_MC : bool) cfg
    (beyond : nat -> Z) (collision : QACollision float) (tracks : FilteredTracks float)
    (tracksUnfiltered : list (Track float)) :
  (forall n, n ∈ selectedCollisionHistos IS_MC -> P n) ->
  Forall (fun f : HistFill float => P (fillName f))
         (selectedCollisionEntries IS_MC cfg beyond collision tracks tracksUnfiltered).
Proof.
  intros HP. unfold selectedCollisionEntries.
  apply Forall_app_2; [|apply Forall_app_2; [|apply Forall_app_2; [|apply Forall_app_2]]].
  - unfold eventEntries. destruct IS_MC; block_names HP.
  - destruct IS_MC; [|constructor].
    destruct (mcCollision (qaCollision collision)); [|constructor].
    unfold eventResoEntries. block_names HP.
  - unfold trackRecoEffEntries. destruct IS_MC; block_names HP.
  - induction tracksUnfiltered as [|t l IH]; [constructor|].
    cbn [flat_map]. apply Forall_app_2; [|exact IH].
    apply (Forall_name_replicate P _ _ (itsHitEntries_names _ _)).
    apply HP. destruct IS_MC; compute_done.
  - induction (selectedRows IS_MC cfg tracks) as [|track rows IH]; [constructor|].
    cbn [flat_map]. apply Forall_app_2; [|exact IH].
    now apply trackEntries_names.
Qed.

(** ** Counting fills *)

Lemma fillCount_app (name : string) entries1 entries2 :
  fillCount name (entries1 ++ entries2)
  = (fillCount name entries1 + fillCount name entries2)%nat.
Proof. unfold fillCount. now rewrite filter_app, length_app. Qed.

Lemma fillCount_other (name : string) entries :
  Forall (fun f : HistFill float => fillName f <> name) entries ->
  fillCount name entries = 0%nat.
Proof.
  unfold fillCount. induction 1 as [|f l Hf _ IH]; [reflexivity|].
  now rewrite filter_cons_False.
Qed.

Lemma recoEffCount_app (bin : Z) entries1 entries2 :
  recoEffCount bin (entries1 ++ entries2)
  = (recoEffCount bin entries1 + recoEffCount bin entries2)%nat.
Proof. unfold recoEffCount. now rewrite filter_app, length_app. Qed.

Lemma recoEffCount_cons (bin n : Z) entries :
  recoEffCount bin (mkFill "Events/recoEff" [HInt n] :: entries)
  = ((if (n =? bin)%Z then 1 else 0) + recoEffCount bin entries)%nat.
Proof.
  assert (E : isRecoEffFill (float := float) bin (mkFill "Events/recoEff" [HInt n])
              = (n =? bin)).
  { unfold isRecoEffFill. cbn [fillName fillArgs]. now case_bool_decide. }
  unfold recoEffCount. destruct (n =? bin).
  - now rewrite filter_cons_True.
  - rewrite filter_cons_False; [reflexivity|]. rewrite E. discriminate.
Qed.

Lemma fillCount_cons (name : string) (f : HistFill float) entries :
  fillCount name (f :: entries)
  = ((if decide (fillName f = name) then 1 else 0) + fillCount name entries)%nat.
Proof.
  unfold fillCount. rewrite filter_cons. now destruct (decide _).
Qed.

Lemma recoEffCount_other (bin : Z) entries :
  Forall (fun f : HistFill float => fillName f <> "Events/recoEff"%string) entries ->
  recoEffCount bin entries = 0%nat.
Proof.
  unfold recoEffCount. induction 1 as [|f l Hf _ IH]; [reflexivity|].
  rewrite filter_cons_False; [exact IH|].
  unfold isRecoEffFill. now rewrite bool_decide_eq_false_2.
Qed.

(** ** ITS hits *)

Lemma layersHit_low_bits (m : Z) : layersHit (Z.land m 127) = layersHit m.
Proof.
  assert (Hbit : forall i : nat, (i < 7)%nat ->
            Z.testbit (Z.land m 127) (Z.of_nat i) = Z.testbit m (Z.of_nat i)).
  { intros i Hi. rewrite Z.land_spec.
    do 7 (destruct i as [|i]; [apply andb_true_r|]). lia. }
  unfold layersHit. cbn [seq]. rewrite !filter_cons, !filter_nil.
  now rewrite !Hbit by lia.
Qed.

Lemma layersHit_length (m : Z) : (List.length (layersHit m) <= 7)%nat.
Proof. unfold layersHit. etransitivity; [apply length_filter|]. reflexivity. Qed.

(** [fillItsHits] appends one fill per ITS layer hit among the layers 0 to
    6, in increasing order, each carrying the number of layers hit, and for
    a track without such a hit the single fill [(-1, 0)].  So a track gets
    between 1 and 7 fills, and the bits of the cluster map above bit 6 play
    no part. *)
Theorem its_hit_fills (name : string) histos (itsClusterMap : Z) :
  fillItsHits name histos itsClusterMap = histos ++ itsHitEntries name itsClusterMap
  /\ List.length (itsHitEntries (float := float) name itsClusterMap)
     = Nat.max 1 (List.length (layersHit itsClusterMap))
  /\ (List.length (layersHit itsClusterMap) <= 7)%nat
  /\ fillItsHits name histos (Z.land itsClusterMap 127)
     = fillItsHits name histos itsClusterMap.
Proof.
  split; [apply fillItsHits_entries|]. split; [|split; [apply layersHit_length|]].
  - unfold itsHitEntries. destruct (layersHit itsClusterMap) as [|i layers]; [reflexivity|].
    rewrite length_fmap. simpl. lia.
  - rewrite !fillItsHits_entries. unfold itsHitEntries.
    now rewrite layersHit_low_bits.
Qed.

(** ** Booked and filled histograms *)

Lemma init_without_qa (sw : ProcessSwitches) info booked :
  doprocessData sw = false -> doprocessMC sw = false ->
  init sw = InitDone info booked -> booked = [].
Proof.
  intros Hd Hm. unfold init. rewrite Hd, Hm.
  destruct (_ && _); [discriminate|]. cbn [negb andb]. now intros [= _ <-].
Qed.

Lemma recoHistos_booked (sw : ProcessSwitches) info booked (IS_MC : bool) :
  init sw = InitDone info booked ->
  (if IS_MC then doprocessMC sw else doprocessData sw) = true ->
  forall n, n ∈ recoHistos IS_MC -> n ∈ booked.
Proof.
  intros Hinit Hsw. apply Forall_forall. revert Hinit Hsw.
  destruct sw as [d iu iuf mc td tm]. unfold init.
  cbn [doprocessData doprocessDataIU doprocessDataIUFiltered doprocessMC
       doprocessTableData doprocessTableMC].
  destruct IS_MC, d, iu, iuf, mc, td, tm; cbn [andb negb];
    (discriminate 1 || (intros _; discriminate 1) || (intros [= <- <-] _; compute_done)).
Qed.

Lemma selectedCollisionHistos_included (IS_MC : bool) (n : string) :
  n ∈ selectedCollisionHistos IS_MC -> n ∈ recoHistos IS_MC.
Proof. revert n. apply Forall_forall. destruct IS_MC; compute_done. Qed.

(** Every histogram that [processData] or [processMC] fills was booked by
    [init]: whenever [init] ends without the fatal record and the switch of
    the process function is on, each fill of a call goes to a name in the
    booked list. *)
Theorem filled_histograms_are_booked (sw : ProcessSwitches) info booked (IS_MC : bool)
    cfg (beyond : nat -> Z) histos (collision : QACollision float)
    (tracks : FilteredTracks float) (tracksUnfiltered : list (Track float)) :
  init sw = InitDone info booked ->
  (if IS_MC then doprocessMC sw else doprocessData sw) = true ->
  exists entries,
    fillRecoHistograms IS_MC cfg beyond histos collision tracks tracksUnfiltered
    = histos ++ entries
    /\ Forall (fun f => fillName f ∈ booked) entries.
Proof.
  intros Hinit Hsw.
  pose proof (recoHistos_booked sw info booked IS_MC Hinit Hsw) as Hbooked.
  eexists. split; [apply fillRecoHistograms_entries|].
  apply Forall_cons_2.
  { apply Hbooked. destruct IS_MC; compute_done. }
  destruct (isSelectedCollision cfg (qaCollision collision)); [|constructor].
  apply Forall_cons_2.
  { apply Hbooked. destruct IS_MC; compute_done. }
  apply (selectedCollisionEntries_names (fun n => n ∈ booked)).
  intros n Hn. now apply Hbooked, selectedCollisionHistos_included.
Qed.

(** ** [Events/recoEff] *)

Lemma recoEffCount_call (IS_MC : bool) cfg (beyond : nat -> Z) histos
    (collision : QACollision float) (tracks : FilteredTracks float)
    (tracksUnfiltered : list (Track float)) :
  let histos' := fillRecoHistograms IS_MC cfg beyond histos collision tracks tracksUnfiltered in
  recoEffCount 1 histos' = S (recoEffCount 1 histos)
  /\ recoEffCount 2 histos'
     = (recoEffCount 2 histos
        + if isSelectedCollision cfg (qaCollision collision) then 1 else 0)%nat.
Proof.
  intros histos'. subst histos'. rewrite fillRecoHistograms_entries.
  assert (Hrest : forall bin,
    recoEffCount bin
      (selectedCollisionEntries IS_MC cfg beyond collision tracks tracksUnfiltered) = 0%nat).
  { intros bin. apply recoEffCount_other.
    apply (selectedCollisionEntries_names (fun n => n <> "Events/recoEff"%string)).
    apply Forall_forall. destruct IS_MC; compute_done. }
  rewrite !recoEffCount_app, !recoEffCount_cons.
  destruct (isSelectedCollision cfg (qaCollision collision)).
  - rewrite !recoEffCount_cons, !Hrest. cbn. split; lia.
  - cbn. split; lia.
Qed.

(** Over a pass of [processData] or [processMC], [Events/recoEff] is
    filled at 1 once per collision and at 2 once per collision that
    [isSelectedCollision] accepts; the fills at 2 never outnumber the fills
    at 1. *)
Theorem reco_efficiency_counts (IS_MC : bool) cfg (beyond : nat -> Z)
    (inputs : list QAInput) histos :
  let histos' := runQA IS_MC cfg beyond histos inputs in
  let accepted :=
    filter (fun input : QAInput => isSelectedCollision cfg (qaCollision input.1.1) = true)
           inputs in
  recoEffCount 1 histos' = (recoEffCount 1 histos + List.length inputs)%nat
  /\ recoEffCount 2 histos' = (recoEffCount 2 histos + List.length accepted)%nat
  /\ (recoEffCount 2 histos <= recoEffCount 1 histos ->
      recoEffCount 2 histos' <= recoEffCount 1 histos')%nat.
Proof.
  revert histos.
  induction inputs as [|[[collision tracks] unf] inputs IH]; intros histos histos' accepted.
  - subst histos' accepted. simpl. repeat split; lia.
  - subst histos' accepted. unfold runQA. cbn [foldl].
    fold (runQA IS_MC cfg beyond
            (fillRecoHistograms IS_MC cfg beyond histos collision tracks unf) inputs).
    destruct (IH (fillRecoHistograms IS_MC cfg beyond histos collision tracks unf))
      as (E1 & E2 & _).
    destruct (recoEffCount_call IS_MC cfg beyond histos collision tracks unf) as [C1 C2].
    rewrite E1, E2, C1, C2.
    pose proof (length_filter
                  (fun input : QAInput =>
                     isSelectedCollision cfg (qaCollision input.1.1) = true) inputs).
    destruct (isSelectedCollision cfg (qaCollision collision)) eqn:Hsel.
    + rewrite filter_cons_True by exact Hsel. simpl. repeat split; lia.
    + rewrite filter_cons_False by (cbn; rewrite Hsel; discriminate).
      simpl. repeat split; lia.
Qed.

(** ** Track multiplicity *)

Lemma fillCount_selectedCollisionEntries (IS_MC : bool) cfg (beyond : nat -> Z)
    (collision : QACollision float) (tracks : FilteredTracks float)
    (tracksUnfiltered : list (Track float)) :
  fillCount "Tracks/Kine/pt"
    (selectedCollisionEntries IS_MC cfg beyond collision tracks tracksUnfiltered)
  = List.length (selectedRows IS_MC cfg tracks)
  /\ fillCount "Events/nTracks"
       (selectedCollisionEntries IS_MC cfg beyond collision tracks tracksUnfiltered)
     = 1%nat.
Proof.
  assert (Htail : forall name track,
    name ∉ trackTailHistos IS_MC ->
    fillCount name (trackTailEntries IS_MC beyond track) = 0%nat).
  { intros name track Hname. apply fillCount_other.
    apply (trackTailEntries_names (fun n => n <> name)). now intros n Hn ->. }
  assert (Hunf : forall name,
    name <> "Tracks/ITS/itsHitsUnfiltered"%string ->
    fillCount name
      (flat_map (fun t : Track float =>
                   itsHitEntries (float := float) "Tracks/ITS/itsHitsUnfiltered"
                     (itsClusterMap t)) tracksUnfiltered) = 0%nat).
  { intros name Hname. apply fillCount_other.
    induction tracksUnfiltered as [|t l IH]; [constructor|].
    cbn [flat_map]. apply Forall_app_2; [|exact IH].
    apply (Forall_name_replicate (fun n => n <> name) _ _ (itsHitEntries_names _ _)).
    congruence. }
  assert (Hreso : forall name,
    name ∉ eventResoHistos ->
    fillCount name
      (if IS_MC then
         match mcCollision (qaCollision collision) with
         | Some _ => eventResoEntries collision
         | None => []
         end
       else []) = 0%nat).
  { intros name Hname. apply fillCount_other.
    destruct IS_MC; [|constructor].
    destruct (mcCollision (qaCollision collision)); [|constructor].
    unfold eventResoEntries.
    repeat (apply Forall_cons_2;
            [cbn [fillName]; intros <-; apply Hname; compute_done|]).
    constructor. }
  unfold selectedCollisionEntries. rewrite !fillCount_app.
  rewrite !Hunf by discriminate. rewrite !Hreso by compute_done.
  split.
  - assert (Hsel : fillCount "Tracks/Kine/pt"
                     (flat_map (trackEntries IS_MC beyond) (selectedRows IS_MC cfg tracks))
                   = List.length (selectedRows IS_MC cfg tracks)).
    { induction (selectedRows IS_MC cfg tracks) as [|track rows IH]; [reflexivity|].
      cbn [flat_map]. unfold trackEntries at 1. rewrite !fillCount_app, IH.
      rewrite Htail by (destruct IS_MC; compute_done). reflexivity. }
    rewrite Hsel. reflexivity.
  - assert (Hsel : fillCount "Events/nTracks"
                     (flat_map (trackEntries IS_MC beyond) (selectedRows IS_MC cfg tracks))
                   = 0%nat).
    { induction (selectedRows IS_MC cfg tracks) as [|track rows IH]; [reflexivity|].
      cbn [flat_map]. unfold trackEntries at 1. rewrite !fillCount_app, IH.
      rewrite Htail by (destruct IS_MC; compute_done). reflexivity. }
    rewrite Hsel. reflexivity.
Qed.

(** For a selected collision, the multiplicity filled in [Events/nTracks]
    (and in [Events/nContribVsMult]) is the number of tracks that enter the
    track histograms of the same call: [Events/nTracks] is filled once,
    with the number of fills of [Tracks/Kine/pt]. *)
Theorem multiplicity_is_number_of_track_fills (IS_MC : bool) cfg (beyond : nat -> Z) histos
    (collision : QACollision float) (tracks : FilteredTracks float)
    (tracksUnfiltered : list (Track float)) :
  isSelectedCollision cfg (qaCollision collision) = true ->
  exists entries,
    fillRecoHistograms IS_MC cfg beyond histos collision tracks tracksUnfiltered
    = histos ++ entries
    /\ fillCount "Events/nTracks" entries = 1%nat
    /\ mkFill "Events/nTracks" [HInt (Z.of_nat (fillCount "Tracks/Kine/pt" entries))]
       ∈ entries
    /\ mkFill "Events/nContribVsMult"
         [HInt (numContrib collision);
          HInt (Z.of_nat (fillCount "Tracks/Kine/pt" entries))]
       ∈ entries.
Proof.
  intros Hsel. eexists. split; [apply fillRecoHistograms_entries|]. rewrite Hsel.
  destruct (fillCount_selectedCollisionEntries IS_MC cfg beyond collision tracks
              tracksUnfiltered) as [Ept Ent].
  rewrite !fillCount_cons, Ept, Ent. cbn [fillName].
  rewrite !decide_False by discriminate.
  cbn [Nat.add]. split; [reflexivity|].
  unfold selectedCollisionEntries, eventEntries.
  split; do 2 apply list_elem_of_further; apply elem_of_app; left.
  - do 16 apply list_elem_of_further. apply list_elem_of_here.
  - do 8 apply list_elem_of_further. apply list_elem_of_here.
Qed.

(** ** The IU comparisons *)

Lemma iuLoop_undefined cfg (tracksIU : list (QATrack float)) (tracksUnfiltered : list (Track float)) :
  foldl (fun (acc : option (list (HistFill float) * nat)) trk =>
           match acc with
           | None => None
           | Some (histos, trackIndex) =>
               if negb (isSelectedTrack false cfg trk) then Some (histos, trackIndex)
               else
                 match tracksIU !! trackIndex with
                 | None => None
                 | Some trkIU => Some (fills histos (iuEntries trk trkIU), S trackIndex)
                 end
           end)
        None tracksUnfiltered
  = None.
Proof. induction tracksUnfiltered as [|trk l IH]; [reflexivity|exact IH]. Qed.

Lemma iuLoop_spec cfg (tracksIU : list (QATrack float)) (tracksUnfiltered : list (Track float)) :
  forall histos (trackIndex : nat),
  (trackIndex <= List.length tracksIU)%nat ->
  foldl (fun (acc : option (list (HistFill float) * nat)) trk =>
           match acc with
           | None => None
           | Some (histos, trackIndex) =>
               if negb (isSelectedTrack false cfg trk) then Some (histos, trackIndex)
               else
                 match tracksIU !! trackIndex with
                 | None => None
                 | Some trkIU => Some (fills histos (iuEntries trk trkIU), S trackIndex)
                 end
           end)
        (Some (histos, trackIndex)) tracksUnfiltered
  = if decide (trackIndex + List.length (selectedTracks false cfg tracksUnfiltered)
               <= List.length tracksIU)%nat
    then Some (histos
               ++ flat_map (fun p => iuEntries p.1 p.2)
                    (zip (selectedTracks false cfg tracksUnfiltered)
                         (drop trackIndex tracksIU)),
               (trackIndex + List.length (selectedTracks false cfg tracksUnfiltered))%nat)
    else None.
Proof.
  induction tracksUnfiltered as [|trk l IH]; intros histos k Hk0.
  - cbn [foldl]. unfold selectedTracks. rewrite filter_nil. cbn [List.length zip_with flat_map].
    rewrite decide_True by lia. now rewrite app_nil_r, Nat.add_0_r.
  - cbn [foldl]. rewrite selectedTracks_cons.
    destruct (isSelectedTrack false cfg trk); cbn [negb]; [|now apply IH].
    destruct (tracksIU !! k) as [trkIU|] eqn:Hk.
    + pose proof (lookup_lt_Some _ _ _ Hk). rewrite IH by lia.
      rewrite (drop_S _ _ _ Hk). cbn [List.length zip_with flat_map].
      destruct (decide (S k + _ <= _)%nat), (decide (k + S _ <= _)%nat); try lia.
      * unfold fills. rewrite <- app_assoc. do 2 f_equal. lia.
      * reflexivity.
    + rewrite iuLoop_undefined. apply lookup_ge_None_1 in Hk.
      cbn [List.length]. now rewrite decide_False by lia.
Qed.

Lemma processDataIU_spec cfg histos (collision : Collision float)
    (tracksUnfiltered : list (Track float)) (tracksIU : list (QATrack float)) :
  processDataIU cfg histos collision tracksUnfiltered tracksIU
  = if isSelectedCollision cfg collision then
      if decide (List.length (selectedTracks false cfg tracksUnfiltered)
                 <= List.length tracksIU)%nat
      then Some (histos
                 ++ flat_map (fun p => iuEntries p.1 p.2)
                      (zip (selectedTracks false cfg tracksUnfiltered) tracksIU))
      else None
    else Some histos.
Proof.
  unfold processDataIU.
  destruct (isSelectedCollision cfg collision); cbn [negb]; [|reflexivity].
  rewrite iuLoop_spec by lia. cbn [Nat.add drop].
  now destruct (decide _).
Qed.

(** [processDataIU] compares the n-th track that [isSelectedTrack]
    accepts with the n-th row of the IU table, whatever the position of
    the track in its own table is: the fills are those of the accepted
    tracks zipped with the IU table.  The call reads past the end of the IU
    table exactly when the accepted tracks outnumber its rows; a rejected
    collision fills nothing. *)
Theorem iu_tracks_paired_by_selection_rank cfg histos (collision : Collision float)
    (tracksUnfiltered : list (Track float)) (tracksIU : list (QATrack float)) :
  let accepted := selectedTracks false cfg tracksUnfiltered in
  (isSelectedCollision cfg collision = false ->
   processDataIU cfg histos collision tracksUnfiltered tracksIU = Some histos)
  /\ (isSelectedCollision cfg collision = true ->
      (List.length accepted <= List.length tracksIU)%nat ->
      processDataIU cfg histos collision tracksUnfiltered tracksIU
      = Some (histos ++ flat_map (fun p => iuEntries p.1 p.2) (zip accepted tracksIU)))
  /\ (isSelectedCollision cfg collision = true ->
      (List.length tracksIU < List.length accepted)%nat ->
      processDataIU cfg histos collision tracksUnfiltered tracksIU = None).
Proof.
  intros accepted. subst accepted. rewrite processDataIU_spec.
  repeat split; intros Hsel; rewrite Hsel; try reflexivity; intros Hlen.
  - now rewrite decide_True by lia.
  - now rewrite decide_False by lia.
Qed.

Lemma processDataIUFiltered_spec cfg (dbg : DebugFilters) histos (collision : Collision float)
    (collisionIndex : Z) (tracksIUTable : list (QATrack float)) :
  processDataIUFiltered cfg dbg histos collision collisionIndex tracksIUTable
  = histos
    ++ (if isSelectedCollision cfg collision then
          flat_map (fun trkIU =>
                      if isSelectedTrack false cfg (qaTrack trkIU)
                      then iuFilteredEntries trkIU else [])
                   (filter (fun track => collisionId track = collisionIndex)
                      (filter (fun track => tracksIUFiltered dbg track = true)
                              tracksIUTable))
        else []).
Proof.
  unfold processDataIUFiltered.
  destruct (isSelectedCollision cfg collision); cbn [negb];
    [|symmetry; apply app_nil_r].
  apply (foldl_appends_with
           (fun histos trkIU =>
              if negb (isSelectedTrack false cfg (qaTrack trkIU)) then histos
              else fills histos (iuFilteredEntries trkIU))
           (fun trkIU =>
              if isSelectedTrack false cfg (qaTrack trkIU)
              then iuFilteredEntries trkIU else [])).
  intros h trkIU. destruct (isSelectedTrack false cfg (qaTrack trkIU)); cbn [negb].
  - reflexivity.
  - symmetry. apply app_nil_r.
Qed.

Lemma iuHistos_booked (sw : ProcessSwitches) info booked :
  init sw = InitDone info booked ->
  doprocessData sw || doprocessMC sw = true ->
  (doprocessDataIU sw = true -> forall n, n ∈ iuHistos -> n ∈ booked)
  /\ (doprocessDataIUFiltered sw = true -> forall n, n ∈ iuFilteredHistos -> n ∈ booked).
Proof.
  destruct sw as [d iu iuf mc td tm]. unfold init.
  cbn [doprocessData doprocessDataIU doprocessDataIUFiltered doprocessMC
       doprocessTableData doprocessTableMC].
  destruct d, iu, iuf, mc, td, tm; cbn [andb negb orb];
    (discriminate 1 || (intros _; discriminate 1)
     || (intros [= <- <-] _; split; intros Hsw;
         (discriminate Hsw || (apply Forall_forall; compute_done)))).
Qed.

(** With [processData] or [processMC] on, every histogram that
    [processDataIU] and [processDataIUFiltered] fill was booked by [init],
    provided the switch of the function is on. *)
Theorem iu_histograms_are_booked_with_qa (sw : ProcessSwitches) info booked cfg
    (dbg : DebugFilters) histos (collision : Collision float) (collisionIndex : Z)
    (tracksUnfiltered : list (Track float)) (tracksIU : list (QATrack float)) :
  init sw = InitDone info booked ->
  doprocessData sw || doprocessMC sw = true ->
  (doprocessDataIU sw = true ->
   forall histos',
     processDataIU cfg histos collision tracksUnfiltered tracksIU = Some histos' ->
     exists entries, histos' = histos ++ entries
                     /\ Forall (fun f => fillName f ∈ booked) entries)
  /\ (doprocessDataIUFiltered sw = true ->
      exists entries,
        processDataIUFiltered cfg dbg histos collision collisionIndex tracksIU
        = histos ++ entries
        /\ Forall (fun f => fillName f ∈ booked) entries).
Proof.
  intros Hinit Hqa.
  destruct (iuHistos_booked sw info booked Hinit Hqa) as [Hiu Hiuf].
  split.
  - intros Hsw histos'. specialize (Hiu Hsw). rewrite processDataIU_spec.
    destruct (isSelectedCollision cfg collision).
    + destruct (decide _); [|discriminate]. intros [= <-].
      eexists. split; [reflexivity|].
      induction (zip _ _) as [|[trk0 trkIU0] pairs IH]; [constructor|].
      cbn [flat_map]. apply Forall_app_2; [|exact IH].
      unfold iuEntries. block_names Hiu.
    + intros [= <-]. exists []. split; [now rewrite app_nil_r|constructor].
  - intros Hsw. specialize (Hiuf Hsw). rewrite processDataIUFiltered_spec.
    eexists. split; [reflexivity|].
    destruct (isSelectedCollision cfg collision); [|constructor].
    induction (filter _ _) as [|trkIU0 rowsIU IH]; [constructor|].
    cbn [flat_map]. apply Forall_app_2; [|exact IH].
    destruct (isSelectedTrack false cfg (qaTrack trkIU0)); [|constructor].
    unfold iuFilteredEntries. block_names Hiuf.
Qed.

(** With [processData] and [processMC] both off, [init] books nothing,
    yet [processDataIU], whose switch is independent, still fills: on a
    selected collision with a selected first track, the registry receives a
    fill for a histogram that was never booked. *)
Theorem iu_fills_unbooked_without_qa (sw : ProcessSwitches) info booked cfg histos
    (collision : Collision float) (trk : Track float) (rest : list (Track float))
    (trkIU : QATrack float) (restIU : list (QATrack float)) histos' :
  doprocessData sw = false -> doprocessMC sw = false ->
  init sw = InitDone info booked ->
  isSelectedCollision cfg collision = true ->
  isSelectedTrack false cfg trk = true ->
  processDataIU cfg histos collision (trk :: rest) (trkIU :: restIU) = Some histos' ->
  booked = []
  /\ mkFill "Tracks/IU/Pt" [HFloat (pt (qaTrack trkIU))] ∈ histos'.
Proof.
  intros Hd Hm Hinit Hsel Htrk. rewrite processDataIU_spec, Hsel.
  rewrite selectedTracks_cons, Htrk.
  destruct (decide _); [|discriminate]. intros [= <-].
  split; [exact (init_without_qa sw info booked Hd Hm Hinit)|].
  cbn [zip_with flat_map]. apply elem_of_app. right.
  apply list_elem_of_here.
Qed.

(** ** The track partition *)

(** With [debugFilterkAcceptaceManualPtMin] on, the partition is the
    lower [pt] cut and the [eta] cut, whether
    [debugFilterkAcceptaceManualPtMinMax] is on or not: the upper [pt] cut
    of the latter is absorbed.  With both off every track is in the
    partition. *)
Theorem partition_min_absorbs_minmax (minMax : bool) (track : QATrack float) :
  tracksIUFiltered (mkDebugFilters true minMax) track
  = fgt (pt (qaTrack track)) lit_0_1 && flt (fabs (eta (qaTrack track))) lit_0_8
  /\ tracksIUFiltered (mkDebugFilters false false) track = true
  /\ tracksIUFiltered (mkDebugFilters false true) track
     = fgt (pt (qaTrack track)) lit_0_1 && flt (pt (qaTrack track)) lit_1e10
       && flt (fabs (eta (qaTrack track))) lit_0_8.
Proof.
  unfold tracksIUFiltered. cbn [debugFilterkAcceptaceManualPtMin
    debugFilterkAcceptaceManualPtMinMax Bool.eqb andb orb].
  split; [|split; reflexivity].
  destruct minMax; cbn [Bool.eqb andb orb];
    destruct (fgt (pt (qaTrack track)) lit_0_1),
             (flt (fabs (eta (qaTrack track))) lit_0_8),
             (flt (pt (qaTrack track)) lit_1e10); reflexivity.
Qed.

End HistogramProperties.

(** * The properties on concrete inputs *)

(** Three admitted tracks, all with a label, and a truth collision of five
    particles: one Collision row, three Track rows, three
    reconstructed-particle rows and two non-reconstructed-particle rows. *)
Example three_matched_tracks_five_particles :
  let st := processTableMC defaultConfig (emptyState 0) (collisionAt 0%float (Some 0))
              [plainTrack (Some particle0); plainTrack (Some particle1);
               plainTrack (Some particle2)]
              fiveParticles in
  List.length (tableCollisions (outLog st)) = 1%nat
  /\ List.length (tableTracks (outLog st)) = 3%nat
  /\ List.length (tableRecoParticles (outLog st)) = 3%nat
  /\ tableNonRecoParticles (outLog st) = [nonRecoRow 0 particle3; nonRecoRow 0 particle4].
Proof. repeat split. Qed.

(** C1.  One admitted track without a label, and a truth collision with the
    particles 0 and 1: no identifier is collected, yet the slot of the track
    in [recoPartIndices] holds the [0] the vector was built with, particle 0
    is found there, and only particle 1 gets a non-reconstructed row. *)
Theorem unlabelled_track_hides_particle_zero :
  let tracks := [plainTrack None] in
  let particles := [particle0; particle1] in
  let collision := collisionAt 0%float (Some 0) in
  let st := processTableMC defaultConfig (emptyState 0) collision tracks particles in
  admitted (emptyState 0) st
  /\ selectedTracks true defaultConfig tracks = tracks
  /\ matchedIndices defaultConfig tracks = []
  /\ sliceBy particles 0 = particles
  /\ finalRecoPartIndices defaultConfig tracks = [0]
  /\ tableNonRecoParticles (outLog st) = [nonRecoRow 0 particle1].
Proof.
  repeat split. now exists (collisionRow defaultConfig (collisionAt 0%float (Some 0))).
Qed.

(** The count 6 under the target 5: the collision passes the cuts, nothing
    is sampled out, and it is not admitted. *)
Lemma running_count_six_target_five_not_admitted :
  let st := emptyState 6 in
  let collision := collisionAt 0%float (Some 0) in
  let st' := processTableMC configTarget5 st collision [plainTrack None] fiveParticles in
  targetNumberOfEvents configTarget5 = 5
  /\ nTableEventCounter st = 6
  /\ passesEventCuts configTarget5 collision
  /\ flt (fractionOfSampledEvents configTarget5) float_one = false
  /\ ~ admitted st st'.
Proof.
  repeat split. intros [row Hrow].
  apply (f_equal (@List.length _)) in Hrow. discriminate Hrow.
Qed.

(** The target 5 with a sampling fraction of one half and a generator
    that returns 0, so that every draw passes.  The collision that meets
    the count 5 is admitted and the count becomes 6; the one that meets the
    count 6 is rejected; of eight collisions from the count 0, six are
    admitted. *)
Lemma cap_check_admits_one_beyond_target_witness :
  let collision := collisionAt 0%float (Some 0) in
  let call st :=
    fillDerivedTable true configTarget5Sampled st collision [plainTrack None] fiveParticles in
  let inputs : list Input := replicate 8 (collision, [plainTrack None], fiveParticles) in
  flt (fractionOfSampledEvents configTarget5Sampled) float_one = true
  /\ targetNumberOfEvents configTarget5Sampled = 5
  /\ passesEventCuts configTarget5Sampled collision
  /\ (notSampled configTarget5Sampled (emptyState 5)).1 = false
  /\ (notSampled configTarget5Sampled (emptyState 6)).1 = false
  /\ (admitted (emptyState 5) (call (emptyState 5))
      /\ nTableEventCounter (call (emptyState 5)) = 6)
  /\ (~ admitted (emptyState 6) (call (emptyState 6))
      /\ outLog (call (emptyState 6)) = outLog (emptyState 6)
      /\ nTableEventCounter (call (emptyState 6)) = 6)
  /\ List.length (tableCollisions
                    (outLog (run true configTarget5Sampled (emptyState 0) inputs)))
     = 6%nat.
Proof.
  intros collision call inputs.
  assert (Hp : passesEventCuts configTarget5Sampled collision) by (split; reflexivity).
  assert (Hs5 : (notSampled configTarget5Sampled (emptyState 5)).1 = false) by reflexivity.
  assert (Hs6 : (notSampled configTarget5Sampled (emptyState 6)).1 = false) by reflexivity.
  split; [reflexivity|]. split; [reflexivity|]. split; [exact Hp|].
  split; [exact Hs5|]. split; [exact Hs6|].
  split; [|split].
  - apply (proj1 (proj2 (proj2 (cap_check_admits_one_beyond_target
                                  true configTarget5Sampled))
                   eq_refl (emptyState 5) collision [plainTrack None] fiveParticles Hp Hs5)).
    reflexivity.
  - apply (proj2 (proj2 (proj2 (cap_check_admits_one_beyond_target
                                  true configTarget5Sampled))
                   eq_refl (emptyState 6) collision [plainTrack None] fiveParticles Hp Hs6)).
    reflexivity.
  - apply (proj1 (proj2 (cap_check_admits_one_beyond_target true configTarget5Sampled))
             randZero inputs).
    + split; [discriminate|reflexivity].
    + repeat constructor.
    + vm_compute. repeat (split; [intros _; reflexivity|]). exact I.
Defined.

(** A collision at [posZ = 150] under [selectMaxVtxZ = 100]. *)
Lemma vertex_cut_rejects_witness :
  let collision := collisionAt 150%float (Some 0) in
  fgt (fabs (posZ collision)) (selectMaxVtxZ defaultConfig) = true
  /\ fillDerivedTable true defaultConfig (emptyState 0) collision
       [plainTrack (Some particle0)] fiveParticles
     = emptyState 0.
Proof.
  split; [reflexivity|]. apply vertex_cut_rejects. reflexivity.
Defined.

(** A collision that fails [sel7] under [selectGoodEvents]. *)
Lemma unselected_collision_not_admitted_witness :
  isSelectedCollision defaultConfig badCollision = false
  /\ fillDerivedTable true defaultConfig (emptyState 0) badCollision
       [plainTrack (Some particle0)] fiveParticles
     = emptyState 0.
Proof.
  split; [reflexivity|]. apply unselected_collision_not_admitted. reflexivity.
Defined.

(** The same call with a generator that returns 0 and with one that returns
    [RAND_MAX], under [fractionOfSampledEvents = 1]. *)
Lemma deterministic_without_sampling_witness :
  let collision := collisionAt 0%float (Some 0) in
  let tracks := [plainTrack (Some particle0); plainTrack None] in
  let st1 := fillDerivedTable true defaultConfig (mkState 3 randZero []) collision
               tracks fiveParticles in
  let st2 := fillDerivedTable true defaultConfig (mkState 3 randMax []) collision
               tracks fiveParticles in
  flt (fractionOfSampledEvents defaultConfig) float_one = false
  /\ outLog st1 = outLog st2
  /\ nTableEventCounter st1 = nTableEventCounter st2
  /\ randStream st1 = randZero /\ randStream st2 = randMax.
Proof.
  split; [reflexivity|].
  apply (deterministic_without_sampling true defaultConfig randZero randMax 3 []).
  reflexivity.
Defined.

(** [selectPID = 211] and a track matched to a particle of PDG code [-211],
    and a negative track under [selectCharge = 1] in data mode. *)
Lemma isSelectedTrack_mc_conjunction_witness :
  let track := plainTrack (Some particle1) in
  mcParticle track = Some particle1
  /\ selectPID configPions = 211 /\ pdgCode particle1 = -211
  /\ INT_MIN < pdgCode particle1 <= INT_MAX
  /\ isSelectedTrack true configPions track = true
  /\ isSelectedTrack true configPions track
     = chargeAccepted configPions track && truthAccepted configPions track
  /\ chargeAccepted configNegativeCharge (chargedTrack 1 1%float) = false
  /\ isSelectedTrack false configNegativeCharge (chargedTrack 1 1%float) = false.
Proof.
  intros track.
  assert (Hrange : INT_MIN < pdgCode particle1 <= INT_MAX) by (split; [reflexivity|discriminate]).
  split; [reflexivity|]. split; [reflexivity|]. split; [reflexivity|].
  split; [exact Hrange|]. split; [|split; [|split; [reflexivity|]]].
  - apply (proj2 (proj2 (proj2 (proj2 (proj2
             (isSelectedTrack_mc_conjunction configPions track))))) particle1);
      reflexivity.
  - apply (proj1 (proj2 (proj2 (proj2
             (isSelectedTrack_mc_conjunction configPions track))))).
    intros particle [= <-]. exact Hrange.
  - apply (proj1 (proj2 (isSelectedTrack_mc_conjunction
                           configNegativeCharge (chargedTrack 1 1%float))) false).
    reflexivity.
Defined.

(** Two configurations that differ in [selectPrim], [selectSec] and
    [selectPID], and two tracks that differ in their label, in data mode. *)
Lemma isSelectedTrack_data_charge_only_witness :
  selectCharge defaultConfig = selectCharge configTruthCuts
  /\ sign (plainTrack None) = sign (plainTrack (Some particle3))
  /\ isSelectedTrack false defaultConfig (plainTrack None)
     = isSelectedTrack false configTruthCuts (plainTrack (Some particle3)).
Proof.
  split; [reflexivity|]. split; [reflexivity|].
  apply isSelectedTrack_data_charge_only; reflexivity.
Defined.

(** Both table modes enabled, and [processTableMC] alone. *)
Lemma init_fatal_iff_both_table_modes_witness :
  (doprocessTableData bothTableModes = true /\ doprocessTableMC bothTableModes = true)
  /\ (exists msg, init bothTableModes = InitFatal msg)
  /\ ~ (doprocessTableData onlyTableMC = true /\ doprocessTableMC onlyTableMC = true)
  /\ (exists info histos, init onlyTableMC = InitDone info histos).
Proof.
  split; [split; reflexivity|]. split; [|split].
  - apply (proj1 (init_fatal_iff_both_table_modes bothTableModes)). split; reflexivity.
  - intros [Hd _]. discriminate Hd.
  - apply (proj2 (init_fatal_iff_both_table_modes onlyTableMC)).
    intros [Hd _]. discriminate Hd.
Defined.

(** A secondary particle with process code 4. *)
Lemma production_classification_witness :
  isPhysicalPrimary particle2 = false /\ getProcess particle2 = 4
  /\ classify particle2 = SecondaryFromDecay
  /\ mcParticle (plainTrack (Some particle2)) = Some particle2
  /\ reco_productionMode (recoRow (plainTrack (Some particle2))) = 1.
Proof.
  pose proof (production_classification defaultConfig (emptyState 0)
                (collisionAt 0%float (Some 0)) [plainTrack (Some particle2)] fiveParticles)
    as (Hclass & _ & Hreco & _).
  split; [reflexivity|]. split; [reflexivity|]. split; [|split; [reflexivity|]].
  - apply (Hclass particle2); reflexivity.
  - rewrite (Hreco (plainTrack (Some particle2)) particle2 eq_refl). reflexivity.
Defined.

(** Two admitted collisions: the Track row of the second one, at stream
    position 8, refers to the Collision row at output position 1. *)
Lemma child_rows_reference_their_collision_witness :
  let inputs : list Input :=
    [(collisionAt 0%float (Some 0), [plainTrack (Some particle0)], fiveParticles);
     (collisionAt 1%float (Some 0), [plainTrack None], fiveParticles)] in
  let log := outLog (run true defaultConfig (emptyState 0) inputs) in
  let r : OutRecord PrimFloat.float := OutTrack (trackRow 1 (plainTrack None)) in
  log !! 8%nat = Some r
  /\ backReference r = Some 1
  /\ exists (j : nat) (c : DPGCollision PrimFloat.float),
       (j < 8)%nat
       /\ log !! j = Some (OutCollision c)
       /\ 0 <= 1
       /\ tableCollisions log !! Z.to_nat 1 = Some c
       /\ tableCollisions (take j log) !! Z.to_nat 1 = None
       /\ (forall j' : nat, collisionWrittenAt log j' 1 -> j' = j)
       /\ (forall (m : nat) r', (j < m < 8)%nat -> log !! m = Some r' ->
                                isCollisionRecord r' = false).
Proof.
  intros inputs log r.
  split; [reflexivity|]. split; [reflexivity|].
  apply (child_rows_reference_their_collision true defaultConfig 0 randZero inputs 8 r 1);
    reflexivity.
Defined.

(** * Further properties on concrete inputs *)


(** A sampling fraction of one half and a generator that returns
    [RAND_MAX]: the draw is 1, the collision is sampled out and one value
    is taken from the generator. *)
Lemma sampling_draws_once_after_cuts_witness :
  let st := mkState 0 randMax [] in
  let collision := collisionAt 0%float (Some 0) in
  let st' := fillDerivedTable true configHalfSampled st collision
               [plainTrack (Some particle0)] fiveParticles in
  flt (fractionOfSampledEvents configHalfSampled) float_one = true
  /\ passesEventCuts configHalfSampled collision
  /\ randStream st' = (fun n => randStream st (S n))
  /\ outLog st' = outLog st /\ nTableEventCounter st' = nTableEventCounter st.
Proof.
  intros st collision st'.
  assert (Hf : flt (fractionOfSampledEvents configHalfSampled) float_one = true)
    by reflexivity.
  assert (Hp : passesEventCuts configHalfSampled collision) by (split; reflexivity).
  split; [exact Hf|]. split; [exact Hp|].
  destruct (proj1 (sampling_draws_once_after_cuts true configHalfSampled st collision
                     [plainTrack (Some particle0)] fiveParticles Hf) Hp) as [Hrand Hskip].
  split; [exact Hrand|]. apply Hskip. reflexivity.
Defined.

(** Eight admissible collisions under the target 5, from the count 0. *)
Lemma counter_stays_below_cap_witness :
  let input : Input := (collisionAt 0%float (Some 0), [plainTrack None], fiveParticles) in
  let st' := run true configTarget5 (emptyState 0) (replicate 8 input) in
  targetNumberOfEvents configTarget5 < INT_MAX
  /\ INT_MIN <= nTableEventCounter (emptyState 0) <= targetNumberOfEvents configTarget5 + 1
  /\ nTableEventCounter (emptyState 0) <= nTableEventCounter st'
                                       <= targetNumberOfEvents configTarget5 + 1.
Proof.
  intros input st'.
  assert (Ht : targetNumberOfEvents configTarget5 < INT_MAX) by reflexivity.
  assert (Hst : INT_MIN <= nTableEventCounter (emptyState 0)
                        <= targetNumberOfEvents configTarget5 + 1)
    by (split; discriminate).
  split; [exact Ht|]. split; [exact Hst|].
  apply (counter_stays_below_cap true configTarget5 (replicate 8 input) (emptyState 0) Ht Hst).
Defined.

(** The same run: the count grows by the number of Collision rows. *)
Lemma running_count_counts_collision_rows_witness :
  let input : Input := (collisionAt 0%float (Some 0), [plainTrack None], fiveParticles) in
  let st' := run true configTarget5 (emptyState 0) (replicate 8 input) in
  targetNumberOfEvents configTarget5 < INT_MAX
  /\ INT_MIN <= nTableEventCounter (emptyState 0) <= targetNumberOfEvents configTarget5 + 1
  /\ exists written : nat,
       List.length (tableCollisions (outLog st'))
       = (List.length (tableCollisions (outLog (emptyState 0))) + written)%nat
       /\ nTableEventCounter st' = nTableEventCounter (emptyState 0) + Z.of_nat written.
Proof.
  intros input st'.
  assert (Ht : targetNumberOfEvents configTarget5 < INT_MAX) by reflexivity.
  assert (Hst : INT_MIN <= nTableEventCounter (emptyState 0)
                        <= targetNumberOfEvents configTarget5 + 1)
    by (split; discriminate).
  split; [exact Ht|]. split; [exact Hst|].
  apply (running_count_counts_collision_rows true configTarget5 (replicate 8 input)
           (emptyState 0) Ht Hst).
Defined.

(** Three calls in Monte Carlo mode, the second on a collision that fails
    the event selection: the third row of the two tables is written from
    the track of the third call, and its Track row refers to the Collision
    row at output position 1. *)
Lemma track_and_reco_tables_parallel_witness :
  let inputs : list Input :=
    [(collisionAt 0%float (Some 0), [plainTrack (Some particle0); plainTrack None],
      fiveParticles);
     (badCollision, [plainTrack (Some particle1)], fiveParticles);
     (collisionAt 1%float (Some 0), [plainTrack (Some particle2)], fiveParticles)] in
  let st' := run true defaultConfig (emptyState 0) inputs in
  admittedTracks true defaultConfig (emptyState 0) inputs
  = [(0, plainTrack (Some particle0)); (0, plainTrack None); (1, plainTrack (Some particle2))]
  /\ tableTracks (outLog st') !! 2%nat = Some (trackRow 1 (plainTrack (Some particle2)))
  /\ tableRecoParticles (outLog st') !! 2%nat = Some (recoRow (plainTrack (Some particle2))).
Proof.
  intros inputs st'. split; [reflexivity|].
  apply (proj1 (proj2 (proj2 (proj2
           (track_and_reco_tables_parallel defaultConfig inputs (emptyState 0)))))
           2%nat 1 (plainTrack (Some particle2))).
  reflexivity.
Defined.

(** [selectPrim] and [selectSec] both set, and a primary particle. *)
Lemma primary_and_secondary_selects_nothing_witness :
  selectPrim configTruthCuts = true /\ selectSec configTruthCuts = true
  /\ isSelectedTrack true configTruthCuts (plainTrack (Some particle0)) = false.
Proof.
  split; [reflexivity|]. split; [reflexivity|].
  apply primary_and_secondary_selects_nothing; reflexivity.
Defined.

(** [selectPID = -211] and a particle of PDG code [-211]. *)
Lemma negative_selectPID_selects_nothing_witness :
  INT_MIN < selectPID configNegativePID < 0
  /\ INT_MIN <= pdgCode particle1 <= INT_MAX
  /\ isSelectedTrack true configNegativePID (plainTrack (Some particle1)) = false.
Proof.
  assert (Hpid : INT_MIN < selectPID configNegativePID < 0) by (split; reflexivity).
  assert (Hpdg : INT_MIN <= pdgCode particle1 <= INT_MAX) by (split; discriminate).
  split; [exact Hpid|]. split; [exact Hpdg|].
  apply (negative_selectPID_selects_nothing configNegativePID (plainTrack (Some particle1)) Hpid).
  intros particle [= <-]. exact Hpdg.
Defined.

(** A track matched to a pion under [selectPID = 211]. *)
Lemma mc_selection_implies_data_selection_witness :
  isSelectedTrack true configPions (plainTrack (Some particle0)) = true
  /\ isSelectedTrack false configPions (plainTrack (Some particle0)) = true.
Proof.
  split; [reflexivity|]. apply mc_selection_implies_data_selection. reflexivity.
Defined.

(** [processData] with the two IU comparisons. *)
Lemma init_books_each_name_once_witness :
  init dataAndIU
  = InitDone [] (eventHistos ++ kineHistos ++ trackHistos ++ iuHistos ++ iuFilteredHistos)
  /\ NoDup (eventHistos ++ kineHistos ++ trackHistos ++ iuHistos ++ iuFilteredHistos).
Proof.
  split; [reflexivity|].
  apply (init_books_each_name_once dataAndIU []). reflexivity.
Defined.

(** [processData] alone, on a selected collision with two tracks. *)
Lemma filled_histograms_are_booked_witness :
  let booked := eventHistos ++ kineHistos ++ trackHistos in
  let tracks := mkFilteredTracks [qaRow (chargedTrack 1 1%float) 0;
                                  qaRow (chargedTrack (-1) 2%float) 0] 3 in
  init onlyProcessData = InitDone [] booked
  /\ doprocessData onlyProcessData = true
  /\ exists entries,
       fillRecoHistograms false defaultConfig shiftCountMod32 []
         (qaCollisionAt 0%float None) tracks [chargedTrack 1 1%float]
       = [] ++ entries
       /\ Forall (fun f => fillName f ∈ booked) entries.
Proof.
  intros booked tracks. split; [reflexivity|]. split; [reflexivity|].
  apply (filled_histograms_are_booked onlyProcessData [] booked false); reflexivity.
Defined.

(** Two collisions, the second of which fails [sel7]. *)
Lemma reco_efficiency_counts_witness :
  let tracks := mkFilteredTracks [qaRow (chargedTrack 1 1%float) 0] 1 in
  let inputs : list QAInput :=
    [(qaCollisionAt 0%float None, tracks, []); (qaBadCollision, tracks, [])] in
  let histos' := runQA false defaultConfig shiftCountMod32 [] inputs in
  (recoEffCount (float := PrimFloat.float) 2 []
   <= recoEffCount (float := PrimFloat.float) 1 [])%nat
  /\ recoEffCount 1 histos' = 2%nat
  /\ recoEffCount 2 histos' = 1%nat
  /\ (recoEffCount 2 histos' <= recoEffCount 1 histos')%nat.
Proof.
  intros tracks inputs histos'.
  destruct (reco_efficiency_counts false defaultConfig shiftCountMod32 inputs [])
    as (E1 & E2 & Hle).
  split; [reflexivity|]. split; [exact E1|]. split; [exact E2|].
  apply Hle. reflexivity.
Defined.

(** A selected collision with one track of each charge under
    [selectCharge = -1]. *)
Lemma multiplicity_is_number_of_track_fills_witness :
  let tracks := mkFilteredTracks [qaRow (chargedTrack 1 1%float) 0;
                                  qaRow (chargedTrack (-1) 2%float) 0] 3 in
  let collision := qaCollisionAt 0%float None in
  isSelectedCollision configNegativeCharge (qaCollision collision) = true
  /\ exists entries,
       fillRecoHistograms false configNegativeCharge shiftCountMod32 [] collision tracks []
       = [] ++ entries
       /\ fillCount "Events/nTracks" entries = 1%nat
       /\ mkFill "Events/nTracks" [HInt (Z.of_nat (fillCount "Tracks/Kine/pt" entries))]
          ∈ entries
       /\ mkFill "Events/nContribVsMult"
            [HInt (numContrib collision);
             HInt (Z.of_nat (fillCount "Tracks/Kine/pt" entries))]
          ∈ entries.
Proof.
  intros tracks collision. split; [reflexivity|].
  apply (multiplicity_is_number_of_track_fills false configNegativeCharge shiftCountMod32 []).
  reflexivity.
Defined.

(** Under [selectCharge = -1], a positive track followed by a negative
    one: the negative track, second in its table, is compared with the
    first row of the IU table. *)
Lemma iu_tracks_paired_by_selection_rank_witness :
  let positive := chargedTrack 1 1%float in
  let negative := chargedTrack (-1) 2%float in
  let tracksIU := [qaRow positive 0; qaRow negative 0] in
  let collision := collisionAt 0%float None in
  isSelectedCollision configNegativeCharge collision = true
  /\ (List.length (selectedTracks false configNegativeCharge [positive; negative])
      <= List.length tracksIU)%nat
  /\ processDataIU configNegativeCharge [] collision [positive; negative] tracksIU
     = Some ([] ++ iuEntries negative (qaRow positive 0) ++ []).
Proof.
  intros positive negative tracksIU collision.
  assert (Hsel : isSelectedCollision configNegativeCharge collision = true) by reflexivity.
  assert (Hlen : (List.length (selectedTracks false configNegativeCharge [positive; negative])
                  <= List.length tracksIU)%nat) by (vm_compute; lia).
  split; [exact Hsel|]. split; [exact Hlen|].
  exact (proj1 (proj2 (iu_tracks_paired_by_selection_rank configNegativeCharge []
                         collision [positive; negative] tracksIU)) Hsel Hlen).
Defined.

(** [processData] with the two IU comparisons on. *)
Lemma iu_histograms_are_booked_with_qa_witness :
  let booked := eventHistos ++ kineHistos ++ trackHistos ++ iuHistos ++ iuFilteredHistos in
  let trk := chargedTrack 1 1%float in
  let collision := collisionAt 0%float None in
  init dataAndIU = InitDone [] booked
  /\ doprocessData dataAndIU || doprocessMC dataAndIU = true
  /\ doprocessDataIU dataAndIU = true
  /\ processDataIU defaultConfig [] collision [trk] [qaRow trk 0]
     = Some ([] ++ iuEntries trk (qaRow trk 0) ++ [])
  /\ exists entries,
       [] ++ iuEntries trk (qaRow trk 0) ++ [] = [] ++ entries
       /\ Forall (fun f => fillName f ∈ booked) entries.
Proof.
  intros booked trk collision.
  split; [reflexivity|]. split; [reflexivity|]. split; [reflexivity|].
  split; [reflexivity|].
  apply (proj1 (iu_histograms_are_booked_with_qa dataAndIU [] booked defaultConfig
                  (mkDebugFilters false false) [] collision 0 [trk] [qaRow trk 0]
                  eq_refl eq_refl) eq_refl).
  reflexivity.
Defined.

(** [processDataIU] on with [processData] and [processMC] off. *)
Lemma iu_fills_unbooked_without_qa_witness :
  let trk := chargedTrack 1 1%float in
  let collision := collisionAt 0%float None in
  doprocessData onlyIU = false /\ doprocessMC onlyIU = false
  /\ doprocessDataIU onlyIU = true
  /\ init onlyIU = InitDone ["No enabled QA, all histograms are disabled"%string] []
  /\ processDataIU defaultConfig [] collision [trk] [qaRow trk 0]
     = Some ([] ++ iuEntries trk (qaRow trk 0) ++ [])
  /\ mkFill "Tracks/IU/Pt" [HFloat (pt (qaTrack (qaRow trk 0)))]
     ∈ [] ++ iuEntries trk (qaRow trk 0) ++ [].
Proof.
  intros trk collision.
  split; [reflexivity|]. split; [reflexivity|]. split; [reflexivity|].
  split; [reflexivity|]. split; [reflexivity|].
  apply (iu_fills_unbooked_without_qa onlyIU
           ["No enabled QA, all histograms are disabled"%string] [] defaultConfig []
           collision trk [] (qaRow trk 0) [] _ eq_refl eq_refl eq_refl eq_refl eq_refl
           eq_refl).
Defined.
